(** * VaxSafe: static/js/script.js

    A shallow embedding of the page script (sticky navbar, smooth in-page
    scrolling, active navigation link, scroll reveal) and the properties
    of its four event handlers.

    The script runs against a host: a document of element objects, a
    window, and the selector engine behind [document.querySelector].  The
    host is modelled as far as the script observes it:
    - element objects live in a store keyed by node identity, so that the
      node lists captured when the page loads alias the elements the
      later handlers change;
    - a handler is a computation over the page that finishes normally or
      with a thrown error, and leaves a record of the host calls it made
      ([preventDefault], [scrollIntoView], [getBoundingClientRect]);
    - [window.scrollY] and [getBoundingClientRect().top] are rationals
      (every finite double is one, and the script only compares them),
      [window.innerHeight] is an integer;
    - [document.querySelector] parses its argument as a selector and
      throws a [SyntaxError] where it does not parse; reading a property
      of [undefined] throws a [TypeError];
    - a click bubbles: it runs the listeners of the clicked element and
      then those of its ancestors, and an error that escapes one listener
      is reported without stopping the others. *)

From Stdlib Require Import QArith Ascii String.
From stdpp Require Import base option list strings gmap.

Local Open Scope string_scope.
Local Open Scope list_scope.
Local Open Scope nat_scope.

(** ** Elements *)

Definition NodeId := nat.

(** The properties of an element object the script reads or writes.
    [hash] is [None] where the property is undefined: only HTML [a] and
    [area] elements have one, an element matched through [.btn] need not
    (a [button] with class [btn]).  For an anchor it is the empty string
    when the URL has no fragment or an empty one, and [#] followed by the
    fragment otherwise. *)
Record Element := mkElement {
  localName : string;
  elemId : option string;
  classList : list string;
  hash : option string;
  parentElement : option NodeId
}.

(** [DOMTokenList.add] and [DOMTokenList.remove] for one token: the list
    is an ordered set, a new token goes to the end. *)
Definition token_add (c : string) (l : list string) : list string :=
  if bool_decide (c ∈ l) then l else l ++ [c].

Definition token_remove (c : string) (l : list string) : list string :=
  List.filter (fun x => negb (String.eqb x c)) l.

Definition contains (c : string) (l : list string) : bool :=
  bool_decide (c ∈ l).

Definition with_classList (f : list string -> list string) (e : Element)
  : Element :=
  {| localName := localName e; elemId := elemId e;
     classList := f (classList e); hash := hash e;
     parentElement := parentElement e |}.

(** ** Selectors

    The grammar of the selectors the script's four literals use: type,
    class and ID selectors, compounds of them, the descendant combinator
    and comma-separated lists.  Identifiers follow CSS Syntax: a name
    start character (letter, underscore, non-ASCII), or a hyphen followed
    by a name start character or a second hyphen, then name characters.
    An ID selector is [#] followed by an identifier: [#section2] is one,
    [#1] is not.  Matching is that of HTML elements in a document in
    no-quirks mode: type selectors compare in lower case, ids and classes
    as they are. *)
Module Selector.

Inductive simple :=
| Tag (name : string)
| Id (name : string)
| Class (name : string).

Definition compound := list simple.
Definition complex := list compound.
Definition selector_list := list complex.

Definition code (c : ascii) : nat := nat_of_ascii c.

Definition is_upper (c : ascii) : bool := (65 <=? code c) && (code c <=? 90).
Definition is_lower (c : ascii) : bool := (97 <=? code c) && (code c <=? 122).
Definition is_digit (c : ascii) : bool := (48 <=? code c) && (code c <=? 57).
Definition is_hyphen (c : ascii) : bool := code c =? 45.

Definition is_name_start (c : ascii) : bool :=
  is_upper c || is_lower c || (code c =? 95) || (128 <=? code c).

Definition is_name_char (c : ascii) : bool :=
  is_name_start c || is_digit c || is_hyphen c.

Definition is_space (c : ascii) : bool :=
  (code c =? 32) || (code c =? 9) || (code c =? 10) || (code c =? 12)
  || (code c =? 13).

Definition is_comma (c : ascii) : bool := code c =? 44.
Definition is_hash (c : ascii) : bool := code c =? 35.
Definition is_dot (c : ascii) : bool := code c =? 46.

Definition is_ident (cs : list ascii) : bool :=
  match cs with
  | [] => false
  | c :: rest =>
      if is_name_start c then forallb is_name_char rest
      else if is_hyphen c then
        match rest with
        | [] => false
        | d :: rest' =>
            (is_name_start d || is_hyphen d) && forallb is_name_char rest'
        end
      else false
  end.

Definition to_lower (c : ascii) : ascii :=
  if is_upper c then ascii_of_nat (code c + 32) else c.

(** Which simple selector the characters being read belong to. *)
Inductive kind := KTag | KId | KClass.

Definition make (k : kind) (name : list ascii) : simple :=
  match k with
  | KTag => Tag (string_of_list_ascii (map to_lower name))
  | KId => Id (string_of_list_ascii name)
  | KClass => Class (string_of_list_ascii name)
  end.

(** Closes the simple selector being read.  Nothing is pending only
    before the first character of a compound. *)
Definition flush (k : kind) (cur : list ascii) (acc : compound)
  : option compound :=
  match k, cur with
  | KTag, [] => Some acc
  | _, _ => if is_ident cur then Some (acc ++ [make k cur]) else None
  end.

Fixpoint parse_compound_from (cs : list ascii) (k : kind) (cur : list ascii)
    (acc : compound) : option compound :=
  match cs with
  | [] => flush k cur acc
  | c :: cs' =>
      if is_hash c then
        match flush k cur acc with
        | Some acc' => parse_compound_from cs' KId [] acc'
        | None => None
        end
      else if is_dot c then
        match flush k cur acc with
        | Some acc' => parse_compound_from cs' KClass [] acc'
        | None => None
        end
      else if is_name_char c then parse_compound_from cs' k (cur ++ [c]) acc
      else None
  end.

Definition parse_compound (cs : list ascii) : option compound :=
  match parse_compound_from cs KTag [] [] with
  | Some [] => None
  | r => r
  end.

(** The fields of [cs] between separators, empty ones included. *)
Fixpoint fields (sep : ascii -> bool) (cs : list ascii) : list (list ascii) :=
  match cs with
  | [] => [[]]
  | c :: cs' =>
      if sep c then [] :: fields sep cs'
      else match fields sep cs' with
           | f :: fs => (c :: f) :: fs
           | [] => [[c]]
           end
  end.

Definition nonempty (cs : list ascii) : bool :=
  match cs with [] => false | _ => true end.

Definition parse_complex (cs : list ascii) : option complex :=
  match List.filter nonempty (fields is_space cs) with
  | [] => None
  | ws => mapM parse_compound ws
  end.

(** [None] is a selector that fails to parse. *)
Definition parse (s : string) : option selector_list :=
  mapM parse_complex (fields is_comma (list_ascii_of_string s)).

(** The strings the grammar above decides: name characters, [#], [.],
    commas and white space only.  A string with any other character
    (attribute selectors, pseudo-classes, other combinators, escapes) is
    left to the host. *)
Definition in_grammar (s : string) : bool :=
  forallb (fun c => is_name_char c || is_space c || is_comma c
                    || is_hash c || is_dot c)
          (list_ascii_of_string s).

(** *** Matching *)

Definition matches_simple (e : Element) (s : simple) : bool :=
  match s with
  | Tag n => String.eqb (localName e) n
  | Id n => bool_decide (elemId e = Some n)
  | Class n => contains n (classList e)
  end.

Definition matches_compound (h : gmap NodeId Element) (c : compound)
    (n : NodeId) : bool :=
  match h !! n with
  | Some e => forallb (matches_simple e) c
  | None => false
  end.

(** The chain of [parentElement]s of [n], nearest first. *)
Fixpoint ancestors (fuel : nat) (h : gmap NodeId Element) (n : NodeId)
  : list NodeId :=
  match fuel with
  | O => []
  | S fuel' =>
      match h !! n ≫= parentElement with
      | Some p => p :: ancestors fuel' h p
      | None => []
      end
  end.

(** [cs] are the compounds left of the subject, innermost first; each
    must match some ancestor further out than the one before. *)
Fixpoint matches_up (h : gmap NodeId Element) (cs : list compound)
    (anc : list NodeId) : bool :=
  match cs with
  | [] => true
  | c :: cs' =>
      match anc with
      | [] => false
      | a :: anc' =>
          if matches_compound h c a then matches_up h cs' anc'
          else matches_up h cs anc'
      end
  end.

Definition matches_complex (h : gmap NodeId Element) (cx : complex)
    (n : NodeId) : bool :=
  match rev cx with
  | [] => false
  | c :: cs =>
      matches_compound h c n && matches_up h cs (ancestors (size h) h n)
  end.

Definition matches (h : gmap NodeId Element) (sl : selector_list)
    (n : NodeId) : bool :=
  existsb (fun cx => matches_complex h cx n) sl.

End Selector.

(** ** The page and the computations over it *)

Inductive JsError := TypeError | SyntaxError.

(** The calls into the host that are visible from outside a handler. *)
Inductive HostCall :=
| PreventDefault
| ScrollIntoView (target : NodeId) (behavior block : string)
| GetBoundingClientRect (el : NodeId).

(** [heap] holds every element object, [document] the elements connected
    to the document, in tree order.  [rectTop] is what
    [getBoundingClientRect().top] returns under the current layout.
    [calls] and [uncaught] only grow: the host calls made so far and the
    errors the listeners let escape. *)
Record Page := mkPage {
  heap : gmap NodeId Element;
  document : list NodeId;
  scrollY : Q;
  innerHeight : Z;
  rectTop : NodeId -> Q;
  calls : list HostCall;
  uncaught : list JsError
}.

Definition set_heap (f : gmap NodeId Element -> gmap NodeId Element)
    (p : Page) : Page :=
  {| heap := f (heap p); document := document p; scrollY := scrollY p;
     innerHeight := innerHeight p; rectTop := rectTop p; calls := calls p;
     uncaught := uncaught p |}.

Definition add_call (c : HostCall) (p : Page) : Page :=
  {| heap := heap p; document := document p; scrollY := scrollY p;
     innerHeight := innerHeight p; rectTop := rectTop p;
     calls := calls p ++ [c]; uncaught := uncaught p |}.

Definition report (e : JsError) (p : Page) : Page :=
  {| heap := heap p; document := document p; scrollY := scrollY p;
     innerHeight := innerHeight p; rectTop := rectTop p; calls := calls p;
     uncaught := uncaught p ++ [e] |}.

(** The user scrolls: a new offset and a new layout. *)
Definition scrolled (y : Q) (tops : NodeId -> Q) (p : Page) : Page :=
  {| heap := heap p; document := document p; scrollY := y;
     innerHeight := innerHeight p; rectTop := tops; calls := calls p;
     uncaught := uncaught p |}.

(** The window is resized: a new viewport height. *)
Definition resized (height : Z) (p : Page) : Page :=
  {| heap := heap p; document := document p; scrollY := scrollY p;
     innerHeight := height; rectTop := rectTop p; calls := calls p;
     uncaught := uncaught p |}.

Inductive Completion (A : Type) :=
| Normal (a : A)
| Throw (e : JsError).
Arguments Normal {A} a.
Arguments Throw {A} e.

Definition Js (A : Type) : Type := Page -> Completion A * Page.

#[global] Instance Js_ret : MRet Js := fun A a p => (Normal a, p).

#[global] Instance Js_bind : MBind Js := fun A B f m p =>
  match m p with
  | (Normal a, p') => f a p'
  | (Throw e, p') => (Throw e, p')
  end.

Definition throw {A} (e : JsError) : Js A := fun p => (Throw e, p).

Definition read {A} (f : Page -> A) : Js A := fun p => (Normal (f p), p).

Definition update (f : Page -> Page) : Js unit := fun p => (Normal tt, f p).

(** [NodeList.forEach]: a callback that throws ends the loop. *)
Fixpoint forEach (l : list NodeId) (f : NodeId -> Js unit) : Js unit :=
  match l with
  | [] => mret tt
  | x :: l' => f x ;; forEach l' f
  end.

(** The page after a computation. *)
Definition exec {A} (m : Js A) (p : Page) : Page := snd (m p).

(** *** JavaScript values of [this.hash]: a string or [undefined] *)

Definition strict_ne (v : option string) (s : string) : bool :=
  match v with
  | Some s' => negb (String.eqb s' s)
  | None => true
  end.

Definition startsWith (v : option string) (s : string) : Js bool :=
  match v with
  | Some s' => mret (String.prefix s s')
  | None => throw TypeError
  end.

Definition to_string (v : option string) : string :=
  match v with
  | Some s => s
  | None => "undefined"
  end.

(** *** Host operations on elements *)

Definition classList_add (el : NodeId) (c : string) : Js unit :=
  update (set_heap (alter (with_classList (token_add c)) el)).

Definition classList_remove (el : NodeId) (c : string) : Js unit :=
  update (set_heap (alter (with_classList (token_remove c)) el)).

Definition get_hash (el : NodeId) : Js (option string) :=
  read (fun p => heap p !! el ≫= hash).

Definition preventDefault : Js unit := update (add_call PreventDefault).

Definition scrollIntoView (el : NodeId) (behavior block : string) : Js unit :=
  update (add_call (ScrollIntoView el behavior block)).

Definition getBoundingClientRect_top (el : NodeId) : Js Q :=
  fun p => (Normal (rectTop p el), add_call (GetBoundingClientRect el) p).

Definition Qlt_bool (a b : Q) : bool := negb (Qle_bool b a).

(** [has_class p el c]: element [el] carries class [c] on page [p]. *)
Definition has_class (p : Page) (el : NodeId) (c : string) : bool :=
  match heap p !! el with
  | Some e => contains c (classList e)
  | None => false
  end.

(** ** The script *)

Section Script.

(** What the host's selector engine does with a selector outside the
    modelled grammar: the matching elements in tree order, or [None] for
    a syntax error.  Every statement below holds whatever it does. *)
Variable beyond :
  string -> gmap NodeId Element -> list NodeId -> option (list NodeId).

Definition select (sel : string) (p : Page) : option (list NodeId) :=
  if Selector.in_grammar sel then
    sl ← Selector.parse sel;
    Some (List.filter (Selector.matches (heap p) sl) (document p))
  else beyond sel (heap p) (document p).

Definition querySelectorAll (sel : string) : Js (list NodeId) :=
  fun p =>
    match select sel p with
    | Some l => (Normal l, p)
    | None => (Throw SyntaxError, p)
    end.

Definition querySelector (sel : string) : Js (option NodeId) :=
  l ← querySelectorAll sel; mret (head l).

(** Lines 3-12: the scroll listener of the sticky navbar. *)
Definition stickyNavbarOnScroll : Js unit :=
  navbar ← querySelector ".navbar";
  match navbar with
  | Some navbar =>
      y ← read scrollY;
      if Qlt_bool 50 y then classList_add navbar "sticky"
      else classList_remove navbar "sticky"
  | None => mret tt
  end.

(** Lines 16-27: the click listener of one element of
    [querySelectorAll("a, .btn")]; [this] is that element. *)
Definition smoothScrollOnClick (this : NodeId) : Js unit :=
  h ← get_hash this;
  if strict_ne h EmptyString then
    b ← startsWith h "#";
    if b : bool then
      preventDefault;;
      target ← querySelector (to_string h);
      match target with
      | Some target => scrollIntoView target "smooth" "start"
      | None => mret tt
      end
    else mret tt
  else mret tt.

(** Lines 33-36: the click listener of [link], one of the captured
    [links]. *)
Definition activeLinkOnClick (links : list NodeId) (link : NodeId)
  : Js unit :=
  forEach links (fun l => classList_remove l "active");;
  classList_add link "active".

(** Lines 41-48. *)
Definition revealOnScroll (revealElements : list NodeId) : Js unit :=
  forEach revealElements (fun el =>
    top ← getBoundingClientRect_top el;
    ih ← read innerHeight;
    if Qlt_bool top (inject_Z (ih - 100)) then classList_add el "visible"
    else mret tt).

(** The node lists the listeners close over. *)
Record Script := mkScript {
  clickables : list NodeId;
  links : list NodeId;
  revealElements : list NodeId
}.

(** Lines 1-52: the [DOMContentLoaded] listener.  It registers the
    listeners, which is to say it fixes the node lists they run on, and
    runs [revealOnScroll] once. *)
Definition onDOMContentLoaded : Js Script :=
  clickables ← querySelectorAll "a, .btn";
  links ← querySelectorAll ".nav-links a";
  revealElements ← querySelectorAll ".reveal";
  revealOnScroll revealElements;;
  mret (mkScript clickables links revealElements).

(** *** Event dispatch

    A listener that throws has its error reported and the dispatch goes
    on with the next listener. *)
Definition listener (m : Js unit) (p : Page) : Page :=
  match m p with
  | (Normal _, p') => p'
  | (Throw e, p') => report e p'
  end.

(** A scroll event: both listeners on [window], in registration order. *)
Definition dispatchScroll (s : Script) (p : Page) : Page :=
  listener (revealOnScroll (revealElements s))
    (listener stickyNavbarOnScroll p).

(** The click listeners registered on the element [node], in
    registration order, run with [this] (and the [link] of the closure)
    being [node]. *)
Definition clickListenersAt (s : Script) (node : NodeId) (p : Page) : Page :=
  let p1 :=
    if bool_decide (node ∈ clickables s)
    then listener (smoothScrollOnClick node) p else p in
  if bool_decide (node ∈ links s)
  then listener (activeLinkOnClick (links s) node) p1 else p1.

(** The propagation path of an event on [target]: the element and then
    its ancestors, innermost first, as they are when the dispatch
    starts. *)
Definition propagationPath (p : Page) (target : NodeId) : list NodeId :=
  target :: Selector.ancestors (size (heap p)) (heap p) target.

(** A click on [target].  The script registers its click listeners
    without options and never stops the propagation, so the click runs
    the listeners of the target and then, bubbling, those of each
    ancestor. *)
Definition dispatchClick (s : Script) (target : NodeId) (p : Page) : Page :=
  foldl (fun q node => clickListenersAt s node q) p
    (propagationPath p target).

(** The user scrolls to offset [y], the layout becomes [tops], and the
    scroll event is dispatched. *)
Definition scrollEvent (s : Script) (y : Q) (tops : NodeId -> Q) (p : Page)
  : Page :=
  dispatchScroll s (scrolled y tops p).

(** What happens to the page after the script is loaded.  The script
    listens to scroll and click events only; a resize changes the
    viewport height and runs nothing. *)
Inductive Event :=
| Scroll (y : Q) (tops : NodeId -> Q)
| Click (target : NodeId)
| Resize (height : Z).

Definition step (s : Script) (p : Page) (ev : Event) : Page :=
  match ev with
  | Scroll y tops => scrollEvent s y tops p
  | Click target => dispatchClick s target p
  | Resize height => resized height p
  end.

(** The page after the events [evs], oldest first. *)
Definition run (s : Script) (evs : list Event) (p : Page) : Page :=
  foldl (step s) p evs.

End Script.

(** ** What a handler may change

    [same_node cs e e']: [e'] is [e] up to membership of the classes
    [cs].  [heap_frame cs h h']: the same element objects exist in [h]
    and [h'], each the same up to the classes [cs]. *)
Definition same_node (cs : list string) (e e' : Element) : Prop :=
  localName e' = localName e /\ elemId e' = elemId e /\ hash e' = hash e
  /\ parentElement e' = parentElement e
  /\ forall c, c ∉ cs -> (c ∈ classList e' <-> c ∈ classList e).

Definition heap_frame (cs : list string) (h h' : gmap NodeId Element)
  : Prop :=
  forall n, option_Forall2 (same_node cs) (h !! n) (h' !! n).

Definition same_window (p p' : Page) : Prop :=
  document p' = document p /\ scrollY p' = scrollY p
  /\ innerHeight p' = innerHeight p /\ rectTop p' = rectTop p.

(** The three classes the script writes. *)
Definition script_classes : list string := ["sticky"; "active"; "visible"].

(** The first element in tree order with class [c]. *)
Definition first_with_class (c : string) (p : Page) : option NodeId :=
  head (List.filter (fun n => has_class p n c) (document p)).

(** The first element in tree order with id [i]. *)
Definition first_with_id (i : string) (p : Page) : option NodeId :=
  head (List.filter
          (fun n => bool_decide (heap p !! n ≫= elemId = Some i))
          (document p)).

(** [frame cs p p']: [p'] has the window and the document of [p], and its
    elements up to the classes [cs]. *)
Definition frame (cs : list string) (p p' : Page) : Prop :=
  same_window p p' /\ heap_frame cs (heap p) (heap p').

(** One turn of the loop of [revealOnScroll], as a change of the page. *)
Definition reveal_one (p : Page) (el : NodeId) : Page :=
  let p1 := add_call (GetBoundingClientRect el) p in
  if Qlt_bool (rectTop p el) (inject_Z (innerHeight p - 100))
  then set_heap (alter (with_classList (token_add "visible")) el) p1
  else p1.

(** The loop of [activeLinkOnClick], as a change of the store. *)
Definition strip_all (c : string) (l : list NodeId)
    (h : gmap NodeId Element) : gmap NodeId Element :=
  foldl (fun h x => alter (with_classList (token_remove c)) x h) h l.

(** [activeLinkOnClick links link] as a change of the store. *)
Definition activate (links : list NodeId) (link : NodeId)
    (h : gmap NodeId Element) : gmap NodeId Element :=
  alter (with_classList (token_add "active")) link
    (strip_all "active" links h).

(** The captured navigation links on a propagation path, innermost
    first, and the outermost of them: the one whose listener runs
    last. *)
Definition links_on (links : list NodeId) (path : list NodeId)
  : list NodeId :=
  List.filter (fun n => bool_decide (n ∈ links)) path.

Definition outermost_link (links : list NodeId) (path : list NodeId)
  : option NodeId :=
  last (links_on links path).

(** ** A sample page *)
Module Sample.

(** A host that rejects every selector outside the modelled grammar. *)
Definition strict : string -> gmap NodeId Element -> list NodeId
                    -> option (list NodeId) :=
  fun _ _ _ => None.

(** [nav.navbar > ul.nav-links > a*3], three sections, a [button.btn],
    an [a.btn] without fragment, and a link to a fragment no element
    carries. *)
Definition elements : gmap NodeId Element :=
  list_to_map
    [ (0, mkElement "nav" None ["navbar"] None None);
      (1, mkElement "ul" None ["nav-links"] None (Some 0));
      (2, mkElement "a" None [] (Some "#home") (Some 1));
      (3, mkElement "a" None [] (Some "#section2") (Some 1));
      (4, mkElement "a" None [] (Some "#1") (Some 1));
      (5, mkElement "section" (Some "home") ["reveal"] None None);
      (6, mkElement "section" (Some "section2") ["reveal"] None None);
      (7, mkElement "section" (Some "1") [] None None);
      (8, mkElement "button" None ["btn"] None None);
      (9, mkElement "a" None ["btn"] (Some EmptyString) None);
      (10, mkElement "a" None [] (Some "#2024") None) ].

(** Viewport height 800; element 5 has its top at 600, the others at
    900. *)
Definition tops (n : NodeId) : Q := if n =? 5 then 600 else 900.

Definition page : Page :=
  mkPage elements [0; 1; 2; 3; 4; 5; 6; 7; 8; 9; 10] 0 800 tops [] [].

(** The same page before the navbar got its class. *)
Definition bare : Page :=
  mkPage (<[0 := mkElement "nav" None [] None None]> elements)
    [0; 1; 2; 3; 4; 5; 6; 7; 8; 9; 10] 0 800 tops [] [].

(** The same page before the sections got the class [reveal]. *)
Definition unmarked : Page :=
  mkPage
    (<[5 := mkElement "section" (Some "home") [] None None]>
       (<[6 := mkElement "section" (Some "section2") [] None None]>
          elements))
    [0; 1; 2; 3; 4; 5; 6; 7; 8; 9; 10] 0 800 tops [] [].

(** What [onDOMContentLoaded] captures on [page] and on [bare]. *)
Definition script : Script :=
  mkScript [2; 3; 4; 8; 9; 10] [2; 3; 4] [5; 6].

Definition far (n : NodeId) : Q := 100000.

End Sample.

(** ** What the literal selectors of the script select *)

(** [a, .btn]: an [a] element or an element with class [btn]. *)
Definition is_clickable (p : Page) (n : NodeId) : bool :=
  match heap p !! n with
  | Some e => String.eqb (localName e) "a" || contains "btn" (classList e)
  | None => false
  end.

(** [.nav-links a]: an [a] element below an element with class
    [nav-links]. *)
Definition is_nav_link (p : Page) (n : NodeId) : bool :=
  match heap p !! n with
  | Some e => String.eqb (localName e) "a"
  | None => false
  end
  && existsb (fun a => has_class p a "nav-links")
       (Selector.ancestors (size (heap p)) (heap p) n).

(** The viewport threshold of [revealOnScroll]. *)
Definition above_threshold (p : Page) (el : NodeId) : bool :=
  Qlt_bool (rectTop p el) (inject_Z (innerHeight p - 100)).

(** ** Variations of the sample page *)
Module Variant.

(** The section [section2] has been given another id: the link to
    [#section2] has no target. *)
Definition renamed : Page :=
  set_heap
    (insert 6 (mkElement "section" (Some "section-two") ["reveal"] None None))
    Sample.page.

(** The link to [#section2] sits inside the link to [#home]: two
    captured navigation links, one the parent of the other. *)
Definition nested : Page :=
  set_heap
    (insert 3 (mkElement "a" None [] (Some "#section2") (Some 2)))
    Sample.page.

End Variant.

(** * Properties *)

Ltac by_compute := vm_compute; reflexivity.
Ltac by_decide := apply (bool_decide_unpack _); vm_compute; exact I.

(** ** Class tokens *)

Lemma elem_of_token_add (c d : string) (l : list string) :
  c ∈ token_add d l <-> c = d \/ c ∈ l.
Proof.
  unfold token_add. case_bool_decide as Hd.
  - split; [auto | intros [-> | H]; auto].
  - rewrite elem_of_app, list_elem_of_singleton. tauto.
Qed.

Lemma elem_of_token_remove (c d : string) (l : list string) :
  c ∈ token_remove d l <-> c <> d /\ c ∈ l.
Proof.
  unfold token_remove.
  rewrite list_elem_of_In, List.filter_In, <- list_elem_of_In.
  rewrite Bool.negb_true_iff, String.eqb_neq. tauto.
Qed.

Lemma token_add_idem (c : string) (l : list string) :
  token_add c (token_add c l) = token_add c l.
Proof.
  unfold token_add at 1. rewrite bool_decide_eq_true_2; [done |].
  apply elem_of_token_add. by left.
Qed.

Lemma token_remove_idem (c : string) (l : list string) :
  token_remove c (token_remove c l) = token_remove c l.
Proof.
  unfold token_remove. induction l as [| x l IH]; simpl; [done |].
  destruct (negb (x =? c)%string) eqn:E; simpl; [rewrite E |]; by rewrite ?IH.
Qed.

Lemma token_remove_add (c : string) (l : list string) :
  token_remove c (token_add c l) = token_remove c l.
Proof.
  unfold token_add. case_bool_decide; [done |].
  unfold token_remove. rewrite List.filter_app. simpl.
  rewrite String.eqb_refl. simpl. by rewrite app_nil_r.
Qed.

Lemma contains_true (c : string) (l : list string) :
  contains c l = true <-> c ∈ l.
Proof. unfold contains. apply bool_decide_eq_true. Qed.

Lemma has_class_true (p : Page) (n : NodeId) (c : string) :
  has_class p n c = true <->
  exists e, heap p !! n = Some e /\ c ∈ classList e.
Proof.
  unfold has_class. destruct (heap p !! n) as [e |].
  - rewrite contains_true. split; [eauto | by intros (? & [= <-] & ?)].
  - split; [done | by intros (? & ? & ?)].
Qed.

Lemma Qlt_bool_true (a b : Q) : Qlt_bool a b = true <-> (a < b)%Q.
Proof.
  unfold Qlt_bool. rewrite Bool.negb_true_iff.
  split.
  - intros H. apply Qnot_le_lt. intros Hle.
    apply Qle_bool_iff in Hle. congruence.
  - intros H. destruct (Qle_bool b a) eqn:E; [| done].
    apply Qle_bool_iff in E. by apply Qlt_not_le in H.
Qed.

(** ** Frames *)

Lemma same_node_refl cs e : same_node cs e e.
Proof. repeat split; auto. Qed.

Lemma same_node_trans cs e1 e2 e3 :
  same_node cs e1 e2 -> same_node cs e2 e3 -> same_node cs e1 e3.
Proof.
  intros (A1 & A2 & A3 & A4 & A5) (B1 & B2 & B3 & B4 & B5).
  repeat split; try congruence.
  - intros Hx. apply A5, B5; done.
  - intros Hx. apply B5, A5; done.
Qed.

Lemma same_node_mono cs cs' e e' :
  cs ⊆ cs' -> same_node cs e e' -> same_node cs' e e'.
Proof.
  intros Hsub (A1 & A2 & A3 & A4 & A5). repeat split; try done.
  all: intros Hx; apply A5; auto.
Qed.

Lemma heap_frame_refl cs h : heap_frame cs h h.
Proof.
  intros n. destruct (h !! n); constructor. apply same_node_refl.
Qed.

Lemma heap_frame_trans cs h1 h2 h3 :
  heap_frame cs h1 h2 -> heap_frame cs h2 h3 -> heap_frame cs h1 h3.
Proof.
  intros H12 H23 n. specialize (H12 n). specialize (H23 n).
  destruct H12; inversion H23; subst; constructor.
  eapply same_node_trans; eauto.
Qed.

Lemma heap_frame_mono cs cs' h h' :
  cs ⊆ cs' -> heap_frame cs h h' -> heap_frame cs' h h'.
Proof.
  intros Hsub H n. specialize (H n). destruct H; constructor.
  eapply same_node_mono; eauto.
Qed.

Lemma heap_frame_alter cs f n h :
  (forall l c, c ∉ cs -> (c ∈ f l <-> c ∈ l)) ->
  heap_frame cs h (alter (with_classList f) n h).
Proof.
  intros Hf k. rewrite lookup_alter. case_decide as E.
  - subst k. destruct (h !! n) as [e |]; constructor.
    repeat split; simpl; try done; apply Hf; done.
  - destruct (h !! k); constructor. apply same_node_refl.
Qed.

Lemma heap_frame_add c n h :
  heap_frame [c] h (alter (with_classList (token_add c)) n h).
Proof.
  apply heap_frame_alter. intros l d Hd. rewrite elem_of_token_add.
  rewrite list_elem_of_singleton in Hd. tauto.
Qed.

Lemma heap_frame_remove c n h :
  heap_frame [c] h (alter (with_classList (token_remove c)) n h).
Proof.
  apply heap_frame_alter. intros l d Hd. rewrite elem_of_token_remove.
  rewrite list_elem_of_singleton in Hd. tauto.
Qed.

Lemma heap_frame_is_Some cs h h' n :
  heap_frame cs h h' -> is_Some (h !! n) <-> is_Some (h' !! n).
Proof.
  intros H. specialize (H n). destruct H; split; intros [? ?]; eauto; done.
Qed.

Lemma has_class_frame cs p p' n c :
  heap_frame cs (heap p) (heap p') -> c ∉ cs ->
  has_class p' n c = has_class p n c.
Proof.
  intros H Hc. unfold has_class. specialize (H n).
  destruct H as [e e' (_ & _ & _ & _ & H) |]; [| done].
  unfold contains. apply bool_decide_ext. by apply H.
Qed.

Lemma first_with_class_frame cs p p' c :
  document p' = document p -> heap_frame cs (heap p) (heap p') -> c ∉ cs ->
  first_with_class c p' = first_with_class c p.
Proof.
  intros Hd H Hc. unfold first_with_class. rewrite Hd. f_equal.
  apply List.filter_ext. intros n. eapply has_class_frame; eauto.
Qed.

Lemma frame_refl cs p : frame cs p p.
Proof. split; [done | apply heap_frame_refl]. Qed.

Lemma frame_trans cs p1 p2 p3 :
  frame cs p1 p2 -> frame cs p2 p3 -> frame cs p1 p3.
Proof.
  intros [(A1 & A2 & A3 & A4) A5] [(B1 & B2 & B3 & B4) B5].
  split; [repeat split; congruence | eapply heap_frame_trans; eauto].
Qed.

Lemma frame_mono cs cs' p p' : cs ⊆ cs' -> frame cs p p' -> frame cs' p p'.
Proof. intros ? [? ?]. split; [done | eapply heap_frame_mono; eauto]. Qed.

(** ** The selector engine on the literals of the script *)

Lemma matches_up_nil (h : gmap NodeId Element) (anc : list NodeId) :
  Selector.matches_up h [] anc = true.
Proof. by destruct anc. Qed.

Lemma matches_class (h : gmap NodeId Element) (c : string) (n : NodeId) :
  Selector.matches h [[[Selector.Class c]]] n =
  match h !! n with
  | Some e => contains c (classList e)
  | None => false
  end.
Proof.
  unfold Selector.matches, Selector.matches_complex,
    Selector.matches_compound; simpl.
  destruct (h !! n); simpl; [| done].
  by rewrite matches_up_nil, !Bool.andb_true_r, Bool.orb_false_r.
Qed.

Lemma matches_id (h : gmap NodeId Element) (i : string) (n : NodeId) :
  Selector.matches h [[[Selector.Id i]]] n =
  bool_decide (h !! n ≫= elemId = Some i).
Proof.
  unfold Selector.matches, Selector.matches_complex,
    Selector.matches_compound; simpl.
  destruct (h !! n); simpl.
  - by rewrite matches_up_nil, !Bool.andb_true_r, Bool.orb_false_r.
  - done.
Qed.

Section Lookup.

Variable beyond :
  string -> gmap NodeId Element -> list NodeId -> option (list NodeId).

Lemma select_class_literal (c : string) (p : Page) :
  Selector.in_grammar ("." ++ c) = true ->
  Selector.parse ("." ++ c) = Some [[[Selector.Class c]]] ->
  select beyond ("." ++ c) p =
  Some (List.filter (fun n => has_class p n c) (document p)).
Proof.
  intros Hg Hp. unfold select. rewrite Hg, Hp. simpl. f_equal.
  apply List.filter_ext. intros n. apply matches_class.
Qed.

Lemma querySelector_navbar (p : Page) :
  querySelector beyond ".navbar" p = (Normal (first_with_class "navbar" p), p).
Proof.
  unfold querySelector, querySelectorAll, mbind, Js_bind.
  rewrite (select_class_literal "navbar") by reflexivity. done.
Qed.

Lemma stickyNavbarOnScroll_eq (p : Page) :
  stickyNavbarOnScroll beyond p =
  (Normal tt,
   match first_with_class "navbar" p with
   | Some navbar =>
       set_heap (alter (with_classList
                          (if Qlt_bool 50 (scrollY p) then token_add "sticky"
                           else token_remove "sticky")) navbar) p
   | None => p
   end).
Proof.
  unfold stickyNavbarOnScroll, mbind, Js_bind.
  rewrite querySelector_navbar.
  destruct (first_with_class "navbar" p) as [n |]; [| done].
  unfold read. by destruct (Qlt_bool 50 (scrollY p)).
Qed.

End Lookup.

(** ** The handlers as changes of the page *)

Lemma Js_bind_eq {A B} (m : Js A) (f : A -> Js B) (p : Page) :
  (m ≫= f) p =
  match m p with
  | (Normal a, p') => f a p'
  | (Throw e, p') => (Throw e, p')
  end.
Proof. done. Qed.

Lemma set_heap_set_heap f g p :
  set_heap g (set_heap f p) = set_heap (fun h => g (f h)) p.
Proof. done. Qed.

Lemma forEach_remove_eq (c : string) (l : list NodeId) (p : Page) :
  forEach l (fun x => classList_remove x c) p =
  (Normal tt, set_heap (strip_all c l) p).
Proof.
  revert p. induction l as [| x l IH]; intros p.
  - by destruct p.
  - simpl. unfold mbind, Js_bind. simpl. rewrite IH.
    by rewrite set_heap_set_heap.
Qed.

Lemma strip_all_lookup (c : string) (l : list NodeId)
    (h : gmap NodeId Element) (k : NodeId) :
  strip_all c l h !! k =
  (if bool_decide (k ∈ l) then with_classList (token_remove c) <$> h !! k
   else h !! k).
Proof.
  unfold strip_all. revert h. induction l as [| x l IH]; intros h; simpl.
  - done.
  - rewrite IH, lookup_alter. destruct (decide (x = k)) as [-> | E].
    + rewrite (bool_decide_eq_true_2 (k ∈ k :: l)) by left.
      destruct (h !! k) as [e |]; simpl; [| by case_bool_decide].
      case_bool_decide; [| done]. unfold with_classList; simpl.
      by rewrite token_remove_idem.
    + case_bool_decide as E1; case_bool_decide as E2; try done.
      * exfalso. apply E2. by right.
      * exfalso. apply elem_of_cons in E2 as [-> | ?]; done.
Qed.

Lemma reveal_fold (l : list NodeId) (p : Page) :
  revealOnScroll l p = (Normal tt, foldl reveal_one p l).
Proof.
  unfold revealOnScroll. revert p. induction l as [| x l IH]; intros p.
  - done.
  - simpl. unfold mbind, Js_bind. simpl. rewrite <- IH.
    unfold reveal_one. simpl.
    by destruct (Qlt_bool (rectTop p x) (inject_Z (innerHeight p - 100))).
Qed.

Section Equations.

Variable beyond :
  string -> gmap NodeId Element -> list NodeId -> option (list NodeId).

Lemma activeLinkOnClick_eq (links : list NodeId) (link : NodeId) (p : Page) :
  activeLinkOnClick links link p =
  (Normal tt,
   set_heap (fun h => alter (with_classList (token_add "active")) link
                        (strip_all "active" links h)) p).
Proof.
  unfold activeLinkOnClick, mbind, Js_bind.
  rewrite forEach_remove_eq. done.
Qed.

Lemma smoothScrollOnClick_eq (this : NodeId) (p : Page) :
  smoothScrollOnClick beyond this p =
  match heap p !! this ≫= hash with
  | None => (Throw TypeError, p)
  | Some h =>
      if negb (String.eqb h EmptyString) && String.prefix "#" h then
        let p1 := add_call PreventDefault p in
        match select beyond h p1 with
        | None => (Throw SyntaxError, p1)
        | Some l =>
            match head l with
            | Some target =>
                (Normal tt,
                 add_call (ScrollIntoView target "smooth" "start") p1)
            | None => (Normal tt, p1)
            end
        end
      else (Normal tt, p)
  end.
Proof.
  unfold smoothScrollOnClick. rewrite Js_bind_eq.
  unfold get_hash, read.
  destruct (heap p !! this ≫= hash) as [h |]; simpl; [| done].
  destruct (negb (String.eqb h EmptyString)); simpl; [| done].
  rewrite Js_bind_eq. unfold mret, Js_ret.
  destruct (String.prefix "#" h); simpl; [| done].
  rewrite Js_bind_eq. simpl. rewrite Js_bind_eq.
  unfold querySelector. rewrite Js_bind_eq. unfold querySelectorAll.
  destruct (select beyond h (add_call PreventDefault p)) as [l |]; [| done].
  by destruct (head l).
Qed.

Lemma onDOMContentLoaded_eq (p : Page) :
  exists clickables links,
    onDOMContentLoaded beyond p =
    (Normal (mkScript clickables links
               (List.filter (fun n => has_class p n "reveal") (document p))),
     foldl reveal_one p
       (List.filter (fun n => has_class p n "reveal") (document p))).
Proof.
  unfold onDOMContentLoaded, mbind, Js_bind, querySelectorAll.
  assert (H1 : exists l, select beyond "a, .btn" p = Some l).
  { unfold select.
    change (Selector.in_grammar "a, .btn") with true.
    change (Selector.parse "a, .btn")
      with (Some [[[Selector.Tag "a"]]; [[Selector.Class "btn"]]]).
    simpl. eauto. }
  assert (H2 : exists l, select beyond ".nav-links a" p = Some l).
  { unfold select.
    change (Selector.in_grammar ".nav-links a") with true.
    change (Selector.parse ".nav-links a")
      with (Some [[[Selector.Class "nav-links"]; [Selector.Tag "a"]]]).
    simpl. eauto. }
  destruct H1 as [l1 ->], H2 as [l2 ->].
  rewrite (select_class_literal beyond "reveal") by reflexivity.
  rewrite reveal_fold. eauto.
Qed.

End Equations.

(** ** What the handlers keep *)

Lemma reveal_one_frame (p : Page) (el : NodeId) :
  frame ["visible"] p (reveal_one p el).
Proof.
  unfold reveal_one.
  destruct (Qlt_bool (rectTop p el) (inject_Z (innerHeight p - 100))).
  - split; [done | apply heap_frame_add].
  - split; [done | apply heap_frame_refl].
Qed.

Lemma reveal_fold_frame (l : list NodeId) (p : Page) :
  frame ["visible"] p (foldl reveal_one p l).
Proof.
  revert p. induction l as [| x l IH]; intros p; simpl.
  - apply frame_refl.
  - eapply frame_trans; [apply reveal_one_frame | apply IH].
Qed.

Lemma reveal_fold_calls (l : list NodeId) (p : Page) :
  calls (foldl reveal_one p l) = calls p ++ map GetBoundingClientRect l
  /\ uncaught (foldl reveal_one p l) = uncaught p.
Proof.
  revert p. induction l as [| x l IH]; intros p; simpl.
  - by rewrite app_nil_r.
  - destruct (IH (reveal_one p x)) as [-> ->]. unfold reveal_one.
    destruct (Qlt_bool (rectTop p x) (inject_Z (innerHeight p - 100)));
      simpl; by rewrite <- app_assoc.
Qed.

Lemma has_class_add (p : Page) (el n : NodeId) (c : string) :
  has_class p n c = true ->
  has_class (set_heap (alter (with_classList (token_add c)) el) p) n c = true.
Proof.
  rewrite !has_class_true. intros (e & He & Hc). simpl.
  rewrite lookup_alter. case_decide as E.
  - subst. rewrite He. simpl. eexists; split; [done |]. simpl.
    apply elem_of_token_add. by right.
  - eauto.
Qed.

Lemma has_class_added (p : Page) (el : NodeId) (c : string) :
  is_Some (heap p !! el) ->
  has_class (set_heap (alter (with_classList (token_add c)) el) p) el c = true.
Proof.
  intros [e He]. apply has_class_true. simpl.
  rewrite lookup_alter, decide_True by done. rewrite He. simpl.
  eexists; split; [done |]. simpl. apply elem_of_token_add. by left.
Qed.

Lemma reveal_one_keeps (p : Page) (el n : NodeId) :
  has_class p n "visible" = true ->
  has_class (reveal_one p el) n "visible" = true.
Proof.
  intros H. unfold reveal_one.
  destruct (Qlt_bool (rectTop p el) (inject_Z (innerHeight p - 100))).
  - by apply (has_class_add (add_call _ p)).
  - done.
Qed.

Lemma reveal_fold_keeps (l : list NodeId) (p : Page) (n : NodeId) :
  has_class p n "visible" = true ->
  has_class (foldl reveal_one p l) n "visible" = true.
Proof.
  revert p. induction l as [| x l IH]; intros p H; simpl; [done |].
  by apply IH, reveal_one_keeps.
Qed.

Lemma reveal_fold_reveals (l : list NodeId) (p : Page) (el : NodeId) :
  el ∈ l -> is_Some (heap p !! el) ->
  Qlt_bool (rectTop p el) (inject_Z (innerHeight p - 100)) = true ->
  has_class (foldl reveal_one p l) el "visible" = true.
Proof.
  revert p. induction l as [| x l IH]; intros p Hin Hs Hlt; simpl.
  - by apply elem_of_nil in Hin.
  - destruct (decide (el = x)) as [-> | Hne].
    + apply reveal_fold_keeps. unfold reveal_one. rewrite Hlt.
      by apply (has_class_added (add_call _ p)).
    + apply elem_of_cons in Hin as [? | Hin]; [done |].
      destruct (reveal_one_frame p x) as [(_ & _ & Hi & Ht) Hf].
      apply IH; [done | by apply (heap_frame_is_Some _ _ _ _ Hf) |].
      by rewrite Hi, Ht.
Qed.

Section Frames.

Variable beyond :
  string -> gmap NodeId Element -> list NodeId -> option (list NodeId).

Lemma sticky_frame (p : Page) :
  frame ["sticky"] p (exec (stickyNavbarOnScroll beyond) p).
Proof.
  unfold exec. rewrite stickyNavbarOnScroll_eq. simpl.
  destruct (first_with_class "navbar" p) as [n |]; [| apply frame_refl].
  split; [done |]. simpl.
  destruct (Qlt_bool 50 (scrollY p));
    [apply heap_frame_add | apply heap_frame_remove].
Qed.

Lemma smooth_heap (this : NodeId) (p : Page) :
  heap (exec (smoothScrollOnClick beyond this) p) = heap p
  /\ same_window p (exec (smoothScrollOnClick beyond this) p).
Proof.
  unfold exec. rewrite smoothScrollOnClick_eq.
  destruct (heap p !! this ≫= hash) as [h |]; [| done].
  destruct (negb (h =? EmptyString)%string && String.prefix "#" h); [| done].
  simpl. destruct (select beyond h (add_call PreventDefault p)) as [l |];
    [| done].
  by destruct (head l).
Qed.

Lemma active_frame (links : list NodeId) (link : NodeId) (p : Page) :
  frame ["active"] p (exec (activeLinkOnClick links link) p).
Proof.
  unfold exec. rewrite activeLinkOnClick_eq. simpl.
  split; [done |]. simpl.
  eapply heap_frame_trans; [| apply heap_frame_add].
  unfold strip_all. generalize (heap p).
  induction links as [| x l IH]; intros h; simpl.
  - apply heap_frame_refl.
  - eapply heap_frame_trans; [apply heap_frame_remove | apply IH].
Qed.

(** A listener leaves the page its computation leaves, up to the record
    of uncaught errors. *)
Lemma listener_fields (m : Js unit) (p : Page) :
  heap (listener m p) = heap (exec m p)
  /\ document (listener m p) = document (exec m p)
  /\ scrollY (listener m p) = scrollY (exec m p)
  /\ innerHeight (listener m p) = innerHeight (exec m p)
  /\ rectTop (listener m p) = rectTop (exec m p)
  /\ calls (listener m p) = calls (exec m p).
Proof.
  unfold listener, exec. by destruct (m p) as [[[] | e] p'].
Qed.

Lemma listener_frame (cs : list string) (m : Js unit) (p : Page) :
  frame cs p (exec m p) -> frame cs p (listener m p).
Proof.
  destruct (listener_fields m p) as (H1 & H2 & H3 & H4 & H5 & _).
  intros [(A1 & A2 & A3 & A4) A5].
  split; [repeat split; congruence | by rewrite H1].
Qed.

Lemma script_classes_sub (c : string) :
  c ∈ script_classes -> [c] ⊆ script_classes.
Proof. intros H d Hd. apply list_elem_of_singleton in Hd. by subst. Qed.

Lemma dispatchScroll_frame (s : Script) (p : Page) :
  frame script_classes p (dispatchScroll beyond s p).
Proof.
  unfold dispatchScroll. eapply frame_trans.
  - apply (frame_mono ["sticky"]); [apply script_classes_sub; by_decide |].
    apply listener_frame, sticky_frame.
  - apply (frame_mono ["visible"]); [apply script_classes_sub; by_decide |].
    apply listener_frame. unfold exec. rewrite reveal_fold.
    apply reveal_fold_frame.
Qed.

Lemma clickListenersAt_frame (s : Script) (node : NodeId) (p : Page) :
  frame ["active"] p (clickListenersAt beyond s node p).
Proof.
  unfold clickListenersAt.
  set (p1 := if bool_decide (node ∈ clickables s)
             then listener (smoothScrollOnClick beyond node) p else p).
  assert (H1 : frame ["active"] p p1).
  { subst p1. destruct (bool_decide (node ∈ clickables s));
      [| apply frame_refl].
    apply listener_frame. destruct (smooth_heap node p) as [Hh Hw].
    split; [done |]. rewrite Hh. apply heap_frame_refl. }
  destruct (bool_decide (node ∈ links s)); [| done].
  eapply frame_trans; [exact H1 |].
  apply listener_frame, active_frame.
Qed.

(** The listeners along a path, one element after the other. *)
Lemma click_path_frame (s : Script) (path : list NodeId) (p : Page) :
  frame ["active"] p
    (foldl (fun q node => clickListenersAt beyond s node q) p path).
Proof.
  revert p. induction path as [| n path IH]; intros p; simpl.
  - apply frame_refl.
  - eapply frame_trans; [apply clickListenersAt_frame | apply IH].
Qed.

Lemma dispatchClick_active_frame (s : Script) (target : NodeId) (p : Page) :
  frame ["active"] p (dispatchClick beyond s target p).
Proof. apply click_path_frame. Qed.

Lemma dispatchClick_frame (s : Script) (target : NodeId) (p : Page) :
  frame script_classes p (dispatchClick beyond s target p).
Proof.
  apply (frame_mono ["active"]); [apply script_classes_sub; by_decide |].
  apply dispatchClick_active_frame.
Qed.

(** No event creates or removes an element, in the document or in the
    store, and no event changes an element but in its membership of the
    three classes. *)
Lemma step_frame (s : Script) (p : Page) (ev : Event) :
  document (step beyond s p ev) = document p
  /\ heap_frame script_classes (heap p) (heap (step beyond s p ev)).
Proof.
  destruct ev as [y tops | target | height]; simpl.
  - unfold scrollEvent.
    destruct (dispatchScroll_frame s (scrolled y tops p))
      as [(A1 & A2 & A3 & A4) A5]. done.
  - destruct (dispatchClick_frame s target p) as [(A1 & A2 & A3 & A4) A5].
    done.
  - split; [done | apply heap_frame_refl].
Qed.

Lemma run_frame (s : Script) (evs : list Event) (p : Page) :
  document (run beyond s evs p) = document p
  /\ heap_frame script_classes (heap p) (heap (run beyond s evs p)).
Proof.
  unfold run. revert p. induction evs as [| ev evs IH]; intros p; simpl.
  - split; [done | apply heap_frame_refl].
  - destruct (step_frame s p ev) as (A1 & A3).
    destruct (IH (step beyond s p ev)) as (B1 & B3).
    split; [congruence |].
    eapply heap_frame_trans; eauto.
Qed.

Lemma step_keeps_visible (s : Script) (p : Page) (ev : Event) (n : NodeId) :
  has_class p n "visible" = true ->
  has_class (step beyond s p ev) n "visible" = true.
Proof.
  intros H. destruct ev as [y tops | target | height]; simpl; [| | done].
  - unfold scrollEvent, dispatchScroll.
    set (p1 := listener (stickyNavbarOnScroll beyond) (scrolled y tops p)).
    assert (H1 : has_class p1 n "visible" = true).
    { destruct (listener_frame _ _ _ (sticky_frame (scrolled y tops p)))
        as [_ Hf].
      rewrite (has_class_frame ["sticky"] (scrolled y tops p) p1); try done.
      by_decide. }
    destruct (listener_fields (revealOnScroll (revealElements s)) p1)
      as (Hh & _).
    unfold has_class. rewrite Hh. unfold exec. rewrite reveal_fold. simpl.
    by apply reveal_fold_keeps.
  - destruct (dispatchClick_active_frame s target p) as [_ Hf].
    rewrite (has_class_frame ["active"] p); try done. by_decide.
Qed.

End Frames.

(** ** The sticky navbar *)

Lemma alter_idem (f : Element -> Element) (n : NodeId)
    (h : gmap NodeId Element) :
  (forall e, f (f e) = f e) -> alter f n (alter f n h) = alter f n h.
Proof.
  intros Hf. apply map_eq. intros k. rewrite !lookup_alter.
  case_decide; [| done]. rewrite decide_True by done.
  destruct (h !! n); simpl; by rewrite ?Hf.
Qed.

Lemma first_with_class_Some (c : string) (p : Page) (n : NodeId) :
  first_with_class c p = Some n -> has_class p n c = true /\ n ∈ document p.
Proof.
  unfold first_with_class. intros H.
  assert (Hin : In n (List.filter (fun n => has_class p n c) (document p))).
  { destruct (List.filter _ _); simplify_eq/=. by left. }
  apply List.filter_In in Hin as [? ?]. by rewrite list_elem_of_In.
Qed.

Section Sticky.

Variable beyond :
  string -> gmap NodeId Element -> list NodeId -> option (list NodeId).

Lemma sticky_sets (p : Page) (navbar : NodeId) :
  first_with_class "navbar" p = Some navbar ->
  has_class (exec (stickyNavbarOnScroll beyond) p) navbar "sticky"
  = Qlt_bool 50 (scrollY p).
Proof.
  intros Hn. unfold exec. rewrite stickyNavbarOnScroll_eq, Hn. simpl.
  apply first_with_class_Some in Hn as [Hc _].
  apply has_class_true in Hc as (e & He & _).
  unfold has_class. simpl. rewrite lookup_alter, decide_True, He by done.
  simpl. unfold contains.
  destruct (Qlt_bool 50 (scrollY p)).
  - apply bool_decide_eq_true. apply elem_of_token_add. by left.
  - apply bool_decide_eq_false. rewrite elem_of_token_remove. tauto.
Qed.

(** Without a navbar the scroll listener does nothing. *)
Lemma sticky_without_navbar (p : Page) :
  first_with_class "navbar" p = None ->
  stickyNavbarOnScroll beyond p = (Normal tt, p).
Proof. intros H. by rewrite stickyNavbarOnScroll_eq, H. Qed.

Lemma sticky_idem (p : Page) :
  exec (stickyNavbarOnScroll beyond) (exec (stickyNavbarOnScroll beyond) p)
  = exec (stickyNavbarOnScroll beyond) p.
Proof.
  destruct (sticky_frame beyond p) as [(Hd & Hy & _) Hf].
  unfold exec at 1. rewrite stickyNavbarOnScroll_eq. simpl.
  rewrite (first_with_class_frame ["sticky"] p) ; try done.
  2: { intros H. by apply list_elem_of_singleton in H. }
  rewrite Hy. unfold exec. rewrite stickyNavbarOnScroll_eq. simpl.
  destruct (first_with_class "navbar" p) as [n |]; [| done].
  unfold set_heap; simpl. f_equal. apply alter_idem. intros e.
  unfold with_classList; simpl. f_equal.
  destruct (Qlt_bool 50 (scrollY p));
    [apply token_add_idem | apply token_remove_idem].
Qed.

End Sticky.

(** ** The listeners under any sequence of events *)

Lemma Qlt_bool_false (a b : Q) : Qlt_bool a b = false <-> (b <= a)%Q.
Proof.
  unfold Qlt_bool. rewrite Bool.negb_false_iff. apply Qle_bool_iff.
Qed.

Lemma not_script_class_navbar : "navbar" ∉ script_classes.
Proof. apply (bool_decide_unpack _). by vm_compute. Qed.

Section Listeners.

Variable beyond :
  string -> gmap NodeId Element -> list NodeId -> option (list NodeId).

Lemma dispatchScroll_sticky (s : Script) (p : Page) (n : NodeId) :
  has_class (dispatchScroll beyond s p) n "sticky"
  = has_class (exec (stickyNavbarOnScroll beyond) p) n "sticky".
Proof.
  unfold dispatchScroll.
  set (p1 := listener (stickyNavbarOnScroll beyond) p).
  destruct (listener_fields (revealOnScroll (revealElements s)) p1)
    as (Hh & _).
  destruct (listener_fields (stickyNavbarOnScroll beyond) p) as (Hh1 & _).
  fold p1 in Hh1.
  transitivity (has_class p1 n "sticky").
  - unfold has_class at 1. rewrite Hh. unfold exec. rewrite reveal_fold.
    simpl. fold (has_class (foldl reveal_one p1 (revealElements s)) n "sticky").
    apply (has_class_frame ["visible"]).
    + apply reveal_fold_frame.
    + intros H. by apply list_elem_of_singleton in H.
  - unfold has_class. by rewrite Hh1.
Qed.

Lemma querySelector_navbar_Some (p : Page) (navbar : NodeId) :
  fst (querySelector beyond ".navbar" p) = Normal (Some navbar) <->
  first_with_class "navbar" p = Some navbar.
Proof.
  rewrite querySelector_navbar. simpl. split; [by intros [= ->] | by intros ->].
Qed.

(** C1.  Sticky navbar: after the scroll listener has run, the navbar (the
    element [querySelector(".navbar")] returns) carries the class
    [sticky] if the scroll offset is greater than 50 and does not carry it
    if the offset is at most 50; running the listener a second time at the
    same offset leaves the page as it is; and after any earlier events
    whatever, a scroll event at offset [y] leaves the class set or not by
    [y] alone. *)
Theorem sticky_follows_current_offset (s : Script) (p : Page)
    (navbar : NodeId) :
  fst (querySelector beyond ".navbar" p) = Normal (Some navbar) ->
  ((50 < scrollY p)%Q ->
   has_class (exec (stickyNavbarOnScroll beyond) p) navbar "sticky" = true)
  /\ ((scrollY p <= 50)%Q ->
      has_class (exec (stickyNavbarOnScroll beyond) p) navbar "sticky" = false)
  /\ exec (stickyNavbarOnScroll beyond)
       (exec (stickyNavbarOnScroll beyond) p)
     = exec (stickyNavbarOnScroll beyond) p
  /\ forall (evs : list Event) (y : Q) (tops : NodeId -> Q),
       ((50 < y)%Q ->
        has_class (scrollEvent beyond s y tops (run beyond s evs p))
          navbar "sticky" = true)
       /\ ((y <= 50)%Q ->
           has_class (scrollEvent beyond s y tops (run beyond s evs p))
             navbar "sticky" = false).
Proof.
  intros Hn. apply querySelector_navbar_Some in Hn.
  split; [| split; [| split]].
  - intros Hy. rewrite (sticky_sets beyond p navbar Hn).
    by apply Qlt_bool_true.
  - intros Hy. rewrite (sticky_sets beyond p navbar Hn).
    by apply Qlt_bool_false.
  - apply sticky_idem.
  - intros evs y tops.
    destruct (run_frame beyond s evs p) as (Hd & Hf).
    assert (Hn' : first_with_class "navbar"
                    (scrolled y tops (run beyond s evs p)) = Some navbar).
    { rewrite <- Hn.
      apply (first_with_class_frame script_classes p
               (scrolled y tops (run beyond s evs p)));
        [done | done | apply not_script_class_navbar]. }
    unfold scrollEvent. rewrite dispatchScroll_sticky.
    rewrite (sticky_sets beyond _ navbar Hn'). simpl.
    split; intros Hy; [by apply Qlt_bool_true | by apply Qlt_bool_false].
Qed.

Lemma active_click_exact (links : list NodeId) (link l : NodeId) (p : Page) :
  link ∈ links -> is_Some (heap p !! link) -> l ∈ links ->
  has_class (exec (activeLinkOnClick links link) p) l "active" = true
  <-> l = link.
Proof.
  intros Hlink [e He] Hl. unfold exec. rewrite activeLinkOnClick_eq. simpl.
  rewrite has_class_true. simpl. rewrite lookup_alter.
  destruct (decide (link = l)) as [<- | Hne].
  - rewrite strip_all_lookup, bool_decide_eq_true_2, He by done. simpl.
    split; [done | intros _]. eexists; split; [done |]. simpl.
    apply elem_of_token_add. by left.
  - rewrite strip_all_lookup, bool_decide_eq_true_2 by done.
    split; [| by intros ->].
    intros (e' & He' & Hin). exfalso.
    destruct (heap p !! l) as [e0 |]; simplify_eq/=.
    apply elem_of_token_remove in Hin. tauto.
Qed.

Lemma clickListenersAt_heap (s : Script) (link : NodeId) (p : Page) :
  link ∈ links s ->
  heap (clickListenersAt beyond s link p)
  = heap (exec (activeLinkOnClick (links s) link) p).
Proof.
  intros Hl. unfold clickListenersAt. rewrite (bool_decide_eq_true_2 _ Hl).
  set (p1 := if bool_decide (link ∈ clickables s)
             then listener (smoothScrollOnClick beyond link) p else p).
  assert (H1 : heap p1 = heap p).
  { subst p1. destruct (bool_decide (link ∈ clickables s)); [| done].
    destruct (listener_fields (smoothScrollOnClick beyond link) p)
      as (-> & _).
    by destruct (smooth_heap beyond link p) as [-> _]. }
  destruct (listener_fields (activeLinkOnClick (links s) link) p1)
    as (-> & _).
  unfold exec. rewrite !activeLinkOnClick_eq. simpl. by rewrite H1.
Qed.

(** C3.  Scroll reveal is one-way: an element that carries [visible]
    carries it after any further events, whatever offsets and layouts the
    scroll events among them bring. *)
Theorem visible_is_never_removed (s : Script) (p : Page) (el : NodeId)
    (evs : list Event) :
  has_class p el "visible" = true ->
  has_class (run beyond s evs p) el "visible" = true.
Proof.
  unfold run. revert p. induction evs as [| ev evs IH]; intros p H; simpl.
  - done.
  - by apply IH, step_keeps_visible.
Qed.

(** C7.  Smooth scroll, empty fragment: a click on a link whose [hash] is
    the empty string finishes normally and leaves the page as it was: no
    [preventDefault], no [scrollIntoView], no change to any element. *)
Theorem empty_fragment_falls_through (p : Page) (this : NodeId) :
  heap p !! this ≫= hash = Some EmptyString ->
  smoothScrollOnClick beyond this p = (Normal tt, p).
Proof.
  intros H. rewrite smoothScrollOnClick_eq, H. done.
Qed.

Lemma active_idem (links : list NodeId) (link : NodeId) (p : Page) :
  exec (activeLinkOnClick links link) (exec (activeLinkOnClick links link) p)
  = exec (activeLinkOnClick links link) p.
Proof.
  unfold exec. rewrite !activeLinkOnClick_eq. simpl.
  rewrite set_heap_set_heap. unfold set_heap. simpl. f_equal.
  apply map_eq. intros k.
  rewrite !lookup_alter, !strip_all_lookup, !lookup_alter,
    !strip_all_lookup.
  destruct (decide (link = k)) as [<- | Hne].
  - rewrite decide_True by done.
    destruct (bool_decide (link ∈ links)); destruct (heap p !! link);
      simpl; try done; unfold with_classList; simpl; do 2 f_equal.
    + by rewrite token_remove_add, token_remove_idem.
    + by rewrite token_add_idem.
  - destruct (bool_decide (k ∈ links)); [| done].
    destruct (heap p !! k); simpl; [| done].
    unfold with_classList; simpl. by rewrite token_remove_idem.
Qed.

(** C10.  The scroll listener of the sticky navbar looks the navbar up when
    the event arrives: on a page [p] that has a navbar at the time of the
    event, whatever the page was when the script was loaded (even with no
    navbar then), the scroll event sets [sticky] on the navbar by the
    current offset; and what the event does to [sticky] on any element is
    what the listener does on [p] alone, whatever node lists the script
    captured. *)
Theorem sticky_looks_up_navbar_at_event_time (p0 p : Page) (s : Script)
    (navbar : NodeId) :
  fst (onDOMContentLoaded beyond p0) = Normal s ->
  fst (querySelector beyond ".navbar" p0) = Normal None ->
  fst (querySelector beyond ".navbar" p) = Normal (Some navbar) ->
  (has_class (dispatchScroll beyond s p) navbar "sticky" = true
   <-> (50 < scrollY p)%Q)
  /\ forall (s' : Script) (n : NodeId),
       has_class (dispatchScroll beyond s' p) n "sticky"
       = has_class (exec (stickyNavbarOnScroll beyond) p) n "sticky".
Proof.
  intros _ _ Hn. apply querySelector_navbar_Some in Hn. split.
  - rewrite dispatchScroll_sticky, (sticky_sets beyond p navbar Hn).
    apply Qlt_bool_true.
  - intros s' n. apply dispatchScroll_sticky.
Qed.

End Listeners.

(** ** The parser on [#] followed by name characters *)

Lemma name_char_plain (c : ascii) :
  Selector.is_name_char c = true ->
  Selector.is_hash c = false /\ Selector.is_dot c = false
  /\ Selector.is_comma c = false /\ Selector.is_space c = false.
Proof.
  destruct c as [[] [] [] [] [] [] [] []]; vm_compute; intuition congruence.
Qed.

Lemma name_start_is_name_char (c : ascii) :
  Selector.is_name_start c = true -> Selector.is_name_char c = true.
Proof. unfold Selector.is_name_char. by intros ->. Qed.

Lemma hyphen_is_name_char (c : ascii) :
  Selector.is_hyphen c = true -> Selector.is_name_char c = true.
Proof.
  unfold Selector.is_name_char. intros ->. by rewrite Bool.orb_true_r.
Qed.

Lemma is_ident_name_chars (cs : list ascii) :
  Selector.is_ident cs = true -> forallb Selector.is_name_char cs = true.
Proof.
  destruct cs as [| c cs]; [done |]. cbn [Selector.is_ident forallb].
  destruct (Selector.is_name_start c) eqn:E1.
  - intros ->. by rewrite name_start_is_name_char.
  - destruct (Selector.is_hyphen c) eqn:E2; [| done].
    rewrite hyphen_is_name_char by done.
    destruct cs as [| d cs]; [done |]. cbn [forallb].
    intros [H1 H2]%andb_prop. rewrite H2.
    apply orb_prop in H1 as [H1 | H1].
    + by rewrite name_start_is_name_char.
    + by rewrite hyphen_is_name_char.
Qed.

Lemma parse_compound_from_name (cs cur : list ascii) (k : Selector.kind)
    (acc : Selector.compound) :
  forallb Selector.is_name_char cs = true ->
  Selector.parse_compound_from cs k cur acc = Selector.flush k (cur ++ cs) acc.
Proof.
  revert cur. induction cs as [| c cs IH]; intros cur H; simpl.
  - by rewrite app_nil_r.
  - simpl in H. apply andb_prop in H as [Hc H].
    destruct (name_char_plain c Hc) as (-> & -> & _).
    rewrite Hc, IH by done. by rewrite <- app_assoc.
Qed.

Lemma fields_no_sep (sep : ascii -> bool) (cs : list ascii) :
  forallb (fun c => negb (sep c)) cs = true -> Selector.fields sep cs = [cs].
Proof.
  induction cs as [| c cs IH]; simpl; [done |].
  intros [Hc H]%andb_prop. apply Bool.negb_true_iff in Hc.
  by rewrite Hc, IH.
Qed.

Lemma hash_name_fields (sep : ascii -> bool) (cs : list ascii) :
  sep "#"%char = false ->
  (forall c, Selector.is_name_char c = true -> sep c = false) ->
  forallb Selector.is_name_char cs = true ->
  Selector.fields sep ("#"%char :: cs) = ["#"%char :: cs].
Proof.
  intros Hh Hs H. apply fields_no_sep. simpl. rewrite Hh. simpl.
  apply forallb_forall. intros c Hc.
  rewrite forallb_forall in H. by rewrite Hs by auto.
Qed.

(** [#] followed by name characters [cs] is one ID selector if [cs] is an
    identifier, and does not parse otherwise. *)
Lemma parse_hash_name (i : string) :
  forallb Selector.is_name_char (list_ascii_of_string i) = true ->
  Selector.in_grammar ("#" ++ i)%string = true
  /\ Selector.parse ("#" ++ i)%string =
     if Selector.is_ident (list_ascii_of_string i)
     then Some [[[Selector.Id i]]] else None.
Proof.
  intros H.
  assert (Hcs : list_ascii_of_string ("#" ++ i)%string
                = "#"%char :: list_ascii_of_string i) by done.
  split.
  - unfold Selector.in_grammar. rewrite Hcs. cbn [forallb].
    change (Selector.is_hash "#") with true.
    rewrite Bool.orb_true_r. cbn [andb].
    apply forallb_forall. intros c Hc.
    rewrite forallb_forall in H. by rewrite H by auto.
  - unfold Selector.parse. rewrite Hcs.
    rewrite hash_name_fields; try done.
    2: { intros c Hc. by destruct (name_char_plain c Hc) as (_ & _ & -> & _). }
    simpl. unfold Selector.parse_complex.
    rewrite hash_name_fields; try done.
    2: { intros c Hc. by destruct (name_char_plain c Hc) as (_ & _ & _ & ->). }
    simpl. unfold Selector.parse_compound. simpl.
    rewrite parse_compound_from_name by done. simpl.
    destruct (Selector.is_ident (list_ascii_of_string i)); [| done].
    simpl. by rewrite string_of_list_ascii_of_string.
Qed.

Lemma guard_hash (i : string) :
  negb (String.eqb ("#" ++ i) EmptyString) && String.prefix "#" ("#" ++ i)
  = true.
Proof. simpl. by destruct i. Qed.

Section Fragments.

Variable beyond :
  string -> gmap NodeId Element -> list NodeId -> option (list NodeId).

Lemma select_id (i : string) (p : Page) :
  Selector.is_ident (list_ascii_of_string i) = true ->
  select beyond ("#" ++ i)%string p =
  Some (List.filter (fun n => bool_decide (heap p !! n ≫= elemId = Some i))
          (document p)).
Proof.
  intros Hi. pose proof (is_ident_name_chars _ Hi) as Hn.
  destruct (parse_hash_name i Hn) as [Hg Hp]. rewrite Hi in Hp.
  unfold select. rewrite Hg, Hp. simpl. f_equal.
  apply List.filter_ext. intros n. apply matches_id.
Qed.

Lemma select_not_ident (i : string) (p : Page) :
  forallb Selector.is_name_char (list_ascii_of_string i) = true ->
  Selector.is_ident (list_ascii_of_string i) = false ->
  select beyond ("#" ++ i)%string p = None.
Proof.
  intros Hn Hi. destruct (parse_hash_name i Hn) as [Hg Hp].
  rewrite Hi in Hp. unfold select. by rewrite Hg, Hp.
Qed.

(** Smooth scroll where the fragment is a CSS identifier: the click on a
    link to [#i] calls [preventDefault] and then [scrollIntoView], once,
    on the first element with id [i]. *)
Lemma smooth_scroll_to_identifier (this target : NodeId) (i : string)
    (p : Page) :
  Selector.is_ident (list_ascii_of_string i) = true ->
  heap p !! this ≫= hash = Some ("#" ++ i)%string ->
  first_with_id i p = Some target ->
  smoothScrollOnClick beyond this p =
  (Normal tt,
   add_call (ScrollIntoView target "smooth" "start")
     (add_call PreventDefault p)).
Proof.
  intros Hi Hh Ht. rewrite smoothScrollOnClick_eq, Hh. cbv beta iota.
  rewrite guard_hash. cbv zeta.
  change (select beyond ("#" ++ i) (add_call PreventDefault p))
    with (select beyond ("#" ++ i) p).
  rewrite select_id by done.
  unfold first_with_id in Ht. by rewrite Ht.
Qed.

(** The same with no element of that id: [preventDefault] only. *)
Lemma smooth_scroll_identifier_missing (this : NodeId) (i : string)
    (p : Page) :
  Selector.is_ident (list_ascii_of_string i) = true ->
  heap p !! this ≫= hash = Some ("#" ++ i)%string ->
  first_with_id i p = None ->
  smoothScrollOnClick beyond this p = (Normal tt, add_call PreventDefault p).
Proof.
  intros Hi Hh Ht. rewrite smoothScrollOnClick_eq, Hh. cbv beta iota.
  rewrite guard_hash. cbv zeta.
  change (select beyond ("#" ++ i) (add_call PreventDefault p))
    with (select beyond ("#" ++ i) p).
  rewrite select_id by done.
  unfold first_with_id in Ht. by rewrite Ht.
Qed.

(** Smooth scroll where the fragment is made of name characters and is
    not a CSS identifier (it starts with a digit, say): on every page,
    with or without an element of that id, the listener calls
    [preventDefault] and [querySelector] throws. *)
Lemma smooth_scroll_not_identifier (this : NodeId) (i : string) (p : Page) :
  forallb Selector.is_name_char (list_ascii_of_string i) = true ->
  Selector.is_ident (list_ascii_of_string i) = false ->
  heap p !! this ≫= hash = Some ("#" ++ i)%string ->
  smoothScrollOnClick beyond this p
  = (Throw SyntaxError, add_call PreventDefault p).
Proof.
  intros Hn Hi Hh. rewrite smoothScrollOnClick_eq, Hh. cbv beta iota.
  rewrite guard_hash. cbv zeta.
  change (select beyond ("#" ++ i) (add_call PreventDefault p))
    with (select beyond ("#" ++ i) p).
  by rewrite select_not_ident.
Qed.

(** Smooth scroll on an element without a [hash] property: the listener
    throws before it does anything. *)
Lemma smooth_scroll_undefined_hash (this : NodeId) (p : Page) :
  heap p !! this ≫= hash = None ->
  smoothScrollOnClick beyond this p = (Throw TypeError, p).
Proof. intros Hh. by rewrite smoothScrollOnClick_eq, Hh. Qed.

End Fragments.

(** ** Scroll reveal *)

Lemma has_class_is_Some (p : Page) (n : NodeId) (c : string) :
  has_class p n c = true -> is_Some (heap p !! n).
Proof. intros (e & -> & _)%has_class_true. eauto. Qed.

Lemma elem_of_filter_bool (f : NodeId -> bool) (l : list NodeId)
    (n : NodeId) :
  n ∈ List.filter f l <-> f n = true /\ n ∈ l.
Proof. rewrite !list_elem_of_In, List.filter_In. tauto. Qed.

Section Reveal.

Variable beyond :
  string -> gmap NodeId Element -> list NodeId -> option (list NodeId).

Lemma sticky_calls (p : Page) :
  calls (exec (stickyNavbarOnScroll beyond) p) = calls p.
Proof.
  unfold exec. rewrite stickyNavbarOnScroll_eq. simpl.
  by destruct (first_with_class "navbar" p).
Qed.

(** A scroll event measures every tracked element once, in order, and
    marks those above the threshold under the layout of the event. *)
Lemma dispatchScroll_reveals (s : Script) (p : Page) :
  calls (dispatchScroll beyond s p)
  = calls p ++ map GetBoundingClientRect (revealElements s)
  /\ forall el, el ∈ revealElements s -> is_Some (heap p !! el) ->
       (rectTop p el < inject_Z (innerHeight p - 100))%Q ->
       has_class (dispatchScroll beyond s p) el "visible" = true.
Proof.
  unfold dispatchScroll.
  set (p1 := listener (stickyNavbarOnScroll beyond) p).
  destruct (listener_fields (stickyNavbarOnScroll beyond) p)
    as (_ & _ & _ & _ & _ & Hc1).
  destruct (listener_frame _ _ _ (sticky_frame beyond p))
    as [(_ & _ & Hi & Ht) Hf].
  fold p1 in Hc1, Hi, Ht, Hf. rewrite sticky_calls in Hc1.
  destruct (listener_fields (revealOnScroll (revealElements s)) p1)
    as (Hh & _ & _ & _ & _ & Hc).
  unfold exec in Hh, Hc. rewrite reveal_fold in Hh, Hc. simpl in Hh, Hc.
  split.
  - rewrite Hc. destruct (reveal_fold_calls (revealElements s) p1) as [-> _].
    by rewrite Hc1.
  - intros el Hel Hs Hlt. unfold has_class. rewrite Hh.
    apply reveal_fold_reveals; [done | |].
    + by apply (heap_frame_is_Some _ _ _ el Hf).
    + rewrite Ht, Hi. by apply Qlt_bool_true.
Qed.

End Reveal.

(** ** The sample page *)

Example sample_script_is_loaded :
  fst (onDOMContentLoaded Sample.strict Sample.page) = Normal Sample.script.
Proof. by_compute. Qed.

(** The click on the link to [#section2]: [preventDefault], then one
    smooth [scrollIntoView] on the section with that id. *)
Example smooth_scroll_to_section2 :
  forall beyond,
    smoothScrollOnClick beyond 3 Sample.page
    = (Normal tt,
       add_call (ScrollIntoView 6 "smooth" "start")
         (add_call PreventDefault Sample.page)).
Proof.
  intros beyond.
  by apply (smooth_scroll_to_identifier beyond 3 6 "section2").
Qed.

(** The list of reveal elements is the one of load time: a section that
    gets the class [reveal] after the script was loaded is measured by no
    scroll event and stays without [visible], though its top is above
    the threshold. *)
Example reveal_list_is_a_snapshot :
  exists s,
    fst (onDOMContentLoaded Sample.strict Sample.unmarked) = Normal s
    /\ has_class Sample.page 5 "reveal" = true
    /\ Qlt (Sample.tops 5) (inject_Z (innerHeight Sample.page - 100))
    /\ has_class (scrollEvent Sample.strict s 0 Sample.tops Sample.page)
         5 "visible" = false
    /\ calls (scrollEvent Sample.strict s 0 Sample.tops Sample.page) = [].
Proof.
  exists (mkScript [2; 3; 4; 8; 9; 10] [2; 3; 4] []).
  repeat split; by_compute.
Qed.

(** C5.  Smooth scroll to the fragment [#1]: the document has an element
    with id [1], and the click on the link calls [preventDefault] and then
    ends with a [SyntaxError] from [querySelector]; [scrollIntoView] is
    not called. *)
Theorem smooth_scroll_numeric_fragment :
  first_with_id "1" Sample.page = Some 7
  /\ heap Sample.page !! 4 ≫= hash = Some "#1"
  /\ forall beyond,
       smoothScrollOnClick beyond 4 Sample.page
       = (Throw SyntaxError, add_call PreventDefault Sample.page).
Proof.
  split; [by_compute | split; [by_compute |]].
  intros beyond. by apply (smooth_scroll_not_identifier beyond 4 "1").
Qed.

(** C6.  Smooth scroll to the fragment [#2024], which no element carries:
    the click calls [preventDefault] and ends with a [SyntaxError]. *)
Theorem smooth_scroll_missing_numeric_target :
  first_with_id "2024" Sample.page = None
  /\ heap Sample.page !! 10 ≫= hash = Some "#2024"
  /\ forall beyond,
       smoothScrollOnClick beyond 10 Sample.page
       = (Throw SyntaxError, add_call PreventDefault Sample.page).
Proof.
  split; [by_compute | split; [by_compute |]].
  intros beyond. by apply (smooth_scroll_not_identifier beyond 10 "2024").
Qed.

(** C8.  Clicks whose target is absent: the click on the link to [#2024]
    leaves a [SyntaxError] uncaught, and the click on the [button.btn],
    which has no [hash], a [TypeError]; neither changes an element. *)
Theorem click_without_target_reports_error :
  forall beyond,
    uncaught (dispatchClick beyond Sample.script 10 Sample.page)
    = [SyntaxError]
    /\ uncaught (dispatchClick beyond Sample.script 8 Sample.page)
       = [TypeError]
    /\ heap (dispatchClick beyond Sample.script 10 Sample.page)
       = heap Sample.page
    /\ heap (dispatchClick beyond Sample.script 8 Sample.page)
       = heap Sample.page.
Proof. intros beyond. repeat split; by_compute. Qed.

Lemma sticky_follows_current_offset_witness :
  fst (querySelector Sample.strict ".navbar" Sample.page) = Normal (Some 0)
  /\ has_class
       (scrollEvent Sample.strict Sample.script 51 Sample.tops
          (run Sample.strict Sample.script
             [Scroll 0 Sample.tops; Scroll 1000 Sample.far; Click 3;
              Scroll 50 Sample.tops]
             Sample.page))
       0 "sticky" = true.
Proof.
  split; [by_compute |].
  apply (sticky_follows_current_offset Sample.strict Sample.script
           Sample.page 0); by_compute.
Defined.

Lemma visible_is_never_removed_witness :
  has_class
    (scrollEvent Sample.strict Sample.script 0 Sample.tops Sample.bare)
    5 "visible" = true
  /\ has_class
       (run Sample.strict Sample.script [Scroll 5000 Sample.far; Click 2]
          (scrollEvent Sample.strict Sample.script 0 Sample.tops
             Sample.bare))
       5 "visible" = true.
Proof.
  assert (H : has_class
                (scrollEvent Sample.strict Sample.script 0 Sample.tops
                   Sample.bare) 5 "visible" = true) by by_compute.
  split; [exact H |].
  exact (visible_is_never_removed Sample.strict Sample.script _ 5
           [Scroll 5000 Sample.far; Click 2] H).
Defined.

Lemma empty_fragment_falls_through_witness :
  heap Sample.page !! 9 ≫= hash = Some EmptyString
  /\ smoothScrollOnClick Sample.strict 9 Sample.page
     = (Normal tt, Sample.page).
Proof.
  assert (H : heap Sample.page !! 9 ≫= hash = Some EmptyString)
    by by_compute.
  split; [exact H |].
  exact (empty_fragment_falls_through Sample.strict Sample.page 9 H).
Defined.

Lemma sticky_looks_up_navbar_at_event_time_witness :
  fst (onDOMContentLoaded Sample.strict Sample.bare) = Normal Sample.script
  /\ fst (querySelector Sample.strict ".navbar" Sample.bare) = Normal None
  /\ fst (querySelector Sample.strict ".navbar"
            (scrolled 51 Sample.tops Sample.page)) = Normal (Some 0)
  /\ (has_class
        (dispatchScroll Sample.strict Sample.script
           (scrolled 51 Sample.tops Sample.page)) 0 "sticky" = true
      <-> (50 < 51)%Q).
Proof.
  assert (H1 : fst (onDOMContentLoaded Sample.strict Sample.bare)
               = Normal Sample.script) by by_compute.
  assert (H2 : fst (querySelector Sample.strict ".navbar" Sample.bare)
               = Normal None) by by_compute.
  assert (H3 : fst (querySelector Sample.strict ".navbar"
                      (scrolled 51 Sample.tops Sample.page))
               = Normal (Some 0)) by by_compute.
  split; [exact H1 | split; [exact H2 | split; [exact H3 |]]].
  exact (proj1 (sticky_looks_up_navbar_at_event_time Sample.strict
                  Sample.bare (scrolled 51 Sample.tops Sample.page)
                  Sample.script 0 H1 H2 H3)).
Defined.

(** * Further properties *)

(** ** The first match of a lookup *)

Lemma head_filter_Some (f : NodeId -> bool) (l : list NodeId) (t : NodeId) :
  head (List.filter f l) = Some t <->
  exists l1 l2, l = l1 ++ t :: l2 /\ f t = true
                /\ forall n, n ∈ l1 -> f n = false.
Proof.
  induction l as [| x l IH]; simpl.
  - split; [done |]. intros (l1 & l2 & H & _). by destruct l1.
  - destruct (f x) eqn:E; simpl.
    + split.
      * intros [= ->]. exists [], l. repeat split; [done |].
        intros n Hn. by apply elem_of_nil in Hn.
      * intros (l1 & l2 & H & Ht & Hl1). destruct l1 as [| y l1].
        -- by simplify_eq/=.
        -- simplify_eq/=. rewrite Hl1 in E by left. done.
    + rewrite IH. split.
      * intros (l1 & l2 & -> & Ht & Hl1). exists (x :: l1), l2.
        repeat split; [done |]. intros n [-> | Hn]%elem_of_cons; auto.
      * intros (l1 & l2 & H & Ht & Hl1). destruct l1 as [| y l1].
        -- simplify_eq/=. congruence.
        -- simplify_eq/=. exists l1, l2. repeat split; [done |].
           intros n Hn. apply Hl1. by right.
Qed.

Lemma head_filter_None (f : NodeId -> bool) (l : list NodeId) :
  head (List.filter f l) = None <-> forall n, n ∈ l -> f n = false.
Proof.
  induction l as [| x l IH]; simpl.
  - split; [| done]. intros _ n Hn. by apply elem_of_nil in Hn.
  - destruct (f x) eqn:E; simpl.
    + split; [done |]. intros H. rewrite H in E by left. done.
    + rewrite IH. split.
      * intros H n [-> | Hn]%elem_of_cons; auto.
      * intros H n Hn. apply H. by right.
Qed.

Lemma head_filter_exists (f : NodeId -> bool) (l : list NodeId) :
  (exists n, n ∈ l /\ f n = true) ->
  exists t, head (List.filter f l) = Some t.
Proof.
  intros (n & Hn & Hf).
  destruct (head (List.filter f l)) as [t |] eqn:E; [eauto |].
  rewrite head_filter_None in E. rewrite E in Hf by done. done.
Qed.

(** ** Smooth scroll: every outcome of a click *)

Section SmoothScroll.

Variable beyond :
  string -> gmap NodeId Element -> list NodeId -> option (list NodeId).

(** X1.  Smooth scroll, fragment a CSS identifier, target present: where
    the document has an element with the id the fragment names, the click
    calls [preventDefault] and then [scrollIntoView], once, smooth and
    aligned to the start, on the first such element in tree order. *)
Theorem smooth_scroll_reaches_first_element_with_id (this : NodeId)
    (i : string) (p : Page) :
  Selector.is_ident (list_ascii_of_string i) = true ->
  heap p !! this ≫= hash = Some ("#" ++ i)%string ->
  (exists n, n ∈ document p /\ heap p !! n ≫= elemId = Some i) ->
  exists target before after,
    document p = before ++ target :: after
    /\ heap p !! target ≫= elemId = Some i
    /\ (forall n, n ∈ before -> heap p !! n ≫= elemId <> Some i)
    /\ smoothScrollOnClick beyond this p
       = (Normal tt,
          add_call (ScrollIntoView target "smooth" "start")
            (add_call PreventDefault p)).
Proof.
  intros Hi Hh (n & Hn & Hid).
  destruct (head_filter_exists
              (fun n => bool_decide (heap p !! n ≫= elemId = Some i))
              (document p)) as [t Ht].
  { exists n. split; [done |]. by apply bool_decide_eq_true. }
  pose proof Ht as Hfirst.
  apply head_filter_Some in Ht as (l1 & l2 & Hd & Hid' & Hl1).
  exists t, l1, l2. split; [done | split; [| split]].
  - by apply bool_decide_eq_true in Hid'.
  - intros m Hm. specialize (Hl1 m Hm). by apply bool_decide_eq_false in Hl1.
  - by apply (smooth_scroll_to_identifier beyond this t i).
Qed.

(** X2.  Smooth scroll, fragment a CSS identifier, target absent: where no
    element of the document has that id, the click calls [preventDefault]
    and finishes normally; nothing is scrolled and nothing is thrown. *)
Theorem smooth_scroll_without_target_is_silent (this : NodeId) (i : string)
    (p : Page) :
  Selector.is_ident (list_ascii_of_string i) = true ->
  heap p !! this ≫= hash = Some ("#" ++ i)%string ->
  (forall n, n ∈ document p -> heap p !! n ≫= elemId <> Some i) ->
  smoothScrollOnClick beyond this p = (Normal tt, add_call PreventDefault p).
Proof.
  intros Hi Hh Hno. apply smooth_scroll_identifier_missing with i; try done.
  apply head_filter_None. intros n Hn. apply bool_decide_eq_false. auto.
Qed.

(** X3.  Smooth scroll, fragment of name characters that is not a CSS
    identifier (a leading digit, a lone hyphen): on every page, whether or
    not an element has that id, the click calls [preventDefault] and then
    throws [SyntaxError]; as a listener it changes no element, records the
    error and scrolls nothing. *)
Theorem smooth_scroll_rejects_non_identifier (this : NodeId) (i : string)
    (p : Page) :
  forallb Selector.is_name_char (list_ascii_of_string i) = true ->
  Selector.is_ident (list_ascii_of_string i) = false ->
  heap p !! this ≫= hash = Some ("#" ++ i)%string ->
  smoothScrollOnClick beyond this p
  = (Throw SyntaxError, add_call PreventDefault p)
  /\ listener (smoothScrollOnClick beyond this) p
     = report SyntaxError (add_call PreventDefault p).
Proof.
  intros Hn Hi Hh.
  pose proof (smooth_scroll_not_identifier beyond this i p Hn Hi Hh) as H.
  split; [done |]. unfold listener. by rewrite H.
Qed.

(** X4.  Smooth scroll on an element without a [hash] property (matched
    through [.btn] and not an anchor): the click throws [TypeError] before
    any host call, and the page is as before. *)
Theorem smooth_scroll_needs_hash_property (this : NodeId) (p : Page) :
  heap p !! this ≫= hash = None ->
  smoothScrollOnClick beyond this p = (Throw TypeError, p)
  /\ listener (smoothScrollOnClick beyond this) p = report TypeError p.
Proof.
  intros Hh.
  pose proof (smooth_scroll_undefined_hash beyond this p Hh) as H.
  split; [done |]. unfold listener. by rewrite H.
Qed.

(** X5.  Smooth scroll, all outcomes: whatever the element and the page, a
    click ends in one of five ways: nothing at all; [TypeError] with
    nothing done; [preventDefault] alone; [preventDefault] and then
    [SyntaxError]; [preventDefault] and then one smooth [scrollIntoView]
    aligned to the start.  It never scrolls without [preventDefault]
    first, never scrolls twice and never changes an element. *)
Theorem smooth_scroll_outcomes (this : NodeId) (p : Page) :
  heap (exec (smoothScrollOnClick beyond this) p) = heap p
  /\ (smoothScrollOnClick beyond this p = (Normal tt, p)
      \/ smoothScrollOnClick beyond this p = (Throw TypeError, p)
      \/ smoothScrollOnClick beyond this p
         = (Normal tt, add_call PreventDefault p)
      \/ smoothScrollOnClick beyond this p
         = (Throw SyntaxError, add_call PreventDefault p)
      \/ exists target,
           smoothScrollOnClick beyond this p
           = (Normal tt,
              add_call (ScrollIntoView target "smooth" "start")
                (add_call PreventDefault p))).
Proof.
  split; [apply smooth_heap |].
  rewrite smoothScrollOnClick_eq.
  destruct (heap p !! this ≫= hash) as [h |]; [| auto].
  destruct (negb (h =? EmptyString)%string && String.prefix "#" h); [| auto].
  cbv zeta.
  destruct (select beyond h (add_call PreventDefault p)) as [l |];
    [| by auto 6].
  destruct (head l) as [t |]; [| by auto 6].
  do 4 right. by exists t.
Qed.

End SmoothScroll.

Lemma smooth_scroll_reaches_first_element_with_id_witness :
  Selector.is_ident (list_ascii_of_string "section2") = true
  /\ heap Sample.page !! 3 ≫= hash = Some "#section2"
  /\ (exists n, n ∈ document Sample.page
                /\ heap Sample.page !! n ≫= elemId = Some "section2")
  /\ exists target before after,
       document Sample.page = before ++ target :: after
       /\ heap Sample.page !! target ≫= elemId = Some "section2"
       /\ (forall n, n ∈ before ->
             heap Sample.page !! n ≫= elemId <> Some "section2")
       /\ smoothScrollOnClick Sample.strict 3 Sample.page
          = (Normal tt,
             add_call (ScrollIntoView target "smooth" "start")
               (add_call PreventDefault Sample.page)).
Proof.
  assert (H1 : Selector.is_ident (list_ascii_of_string "section2") = true)
    by by_compute.
  assert (H2 : heap Sample.page !! 3 ≫= hash = Some "#section2")
    by by_compute.
  assert (H3 : exists n, n ∈ document Sample.page
                 /\ heap Sample.page !! n ≫= elemId = Some "section2").
  { exists 6. split; [by_decide | by_compute]. }
  split; [exact H1 | split; [exact H2 | split; [exact H3 |]]].
  exact (smooth_scroll_reaches_first_element_with_id Sample.strict 3
           "section2" Sample.page H1 H2 H3).
Defined.

Lemma smooth_scroll_without_target_is_silent_witness :
  Selector.is_ident (list_ascii_of_string "section2") = true
  /\ heap Variant.renamed !! 3 ≫= hash = Some "#section2"
  /\ (forall n, n ∈ document Variant.renamed ->
        heap Variant.renamed !! n ≫= elemId <> Some "section2")
  /\ smoothScrollOnClick Sample.strict 3 Variant.renamed
     = (Normal tt, add_call PreventDefault Variant.renamed).
Proof.
  assert (H1 : Selector.is_ident (list_ascii_of_string "section2") = true)
    by by_compute.
  assert (H2 : heap Variant.renamed !! 3 ≫= hash = Some "#section2")
    by by_compute.
  assert (H3 : forall n, n ∈ document Variant.renamed ->
                 heap Variant.renamed !! n ≫= elemId <> Some "section2").
  { intros n Hn. apply (bool_decide_unpack _).
    apply list_elem_of_In in Hn. simpl in Hn.
    repeat (destruct Hn as [<- | Hn]; [by vm_compute |]). done. }
  split; [exact H1 | split; [exact H2 | split; [exact H3 |]]].
  exact (smooth_scroll_without_target_is_silent Sample.strict 3 "section2"
           Variant.renamed H1 H2 H3).
Defined.

Lemma smooth_scroll_rejects_non_identifier_witness :
  forallb Selector.is_name_char (list_ascii_of_string "2024") = true
  /\ Selector.is_ident (list_ascii_of_string "2024") = false
  /\ heap Sample.page !! 10 ≫= hash = Some "#2024"
  /\ listener (smoothScrollOnClick Sample.strict 10) Sample.page
     = report SyntaxError (add_call PreventDefault Sample.page).
Proof.
  assert (H1 : forallb Selector.is_name_char (list_ascii_of_string "2024")
               = true) by by_compute.
  assert (H2 : Selector.is_ident (list_ascii_of_string "2024") = false)
    by by_compute.
  assert (H3 : heap Sample.page !! 10 ≫= hash = Some "#2024") by by_compute.
  split; [exact H1 | split; [exact H2 | split; [exact H3 |]]].
  exact (proj2 (smooth_scroll_rejects_non_identifier Sample.strict 10 "2024"
                  Sample.page H1 H2 H3)).
Defined.

Lemma smooth_scroll_needs_hash_property_witness :
  heap Sample.page !! 8 ≫= hash = None
  /\ smoothScrollOnClick Sample.strict 8 Sample.page
     = (Throw TypeError, Sample.page).
Proof.
  assert (H2 : heap Sample.page !! 8 ≫= hash = None) by by_compute.
  split; [exact H2 |].
  exact (proj1 (smooth_scroll_needs_hash_property Sample.strict 8
                  Sample.page H2)).
Defined.

(** ** The exact effect of a scroll event *)

Lemma token_add_in (c : string) (l : list string) :
  c ∈ l -> token_add c l = l.
Proof. intros H. unfold token_add. by rewrite bool_decide_eq_true_2. Qed.

Lemma token_remove_notin (c : string) (l : list string) :
  c ∉ l -> token_remove c l = l.
Proof.
  intros H. unfold token_remove. induction l as [| x l IH]; simpl; [done |].
  apply not_elem_of_cons in H as [Hx Hl].
  destruct (String.eqb_spec x c) as [-> | _]; [done |]. simpl.
  by rewrite IH.
Qed.

Lemma reveal_one_window (p : Page) (x : NodeId) :
  rectTop (reveal_one p x) = rectTop p
  /\ innerHeight (reveal_one p x) = innerHeight p.
Proof.
  unfold reveal_one.
  by destruct (Qlt_bool (rectTop p x) (inject_Z (innerHeight p - 100))).
Qed.

Lemma reveal_one_lookup (p : Page) (x k : NodeId) :
  heap (reveal_one p x) !! k =
  if bool_decide (k = x) && above_threshold p k
  then with_classList (token_add "visible") <$> heap p !! k
  else heap p !! k.
Proof.
  unfold reveal_one, above_threshold.
  destruct (decide (k = x)) as [-> | Hne].
  - rewrite bool_decide_eq_true_2 by done. simpl.
    destruct (Qlt_bool (rectTop p x) (inject_Z (innerHeight p - 100)));
      simpl; [| done].
    by rewrite lookup_alter, decide_True.
  - rewrite bool_decide_eq_false_2 by done. simpl.
    destruct (Qlt_bool (rectTop p x) (inject_Z (innerHeight p - 100)));
      simpl; [| done].
    by rewrite lookup_alter_ne.
Qed.

(** The loop of [revealOnScroll], element by element. *)
Lemma reveal_fold_lookup (l : list NodeId) (p : Page) (k : NodeId) :
  heap (foldl reveal_one p l) !! k =
  if bool_decide (k ∈ l) && above_threshold p k
  then with_classList (token_add "visible") <$> heap p !! k
  else heap p !! k.
Proof.
  revert p. induction l as [| x l IH]; intros p; simpl.
  - done.
  - rewrite IH, reveal_one_lookup.
    destruct (reveal_one_window p x) as [Ht Hi].
    assert (Ha : above_threshold (reveal_one p x) k = above_threshold p k).
    { unfold above_threshold. by rewrite Ht, Hi. }
    rewrite Ha.
    destruct (above_threshold p k); rewrite ?Bool.andb_true_r,
      ?Bool.andb_false_r; [| done].
    destruct (decide (k = x)) as [-> | Hne].
    + rewrite (bool_decide_eq_true_2 (x = x)) by done.
      rewrite (bool_decide_eq_true_2 (x ∈ x :: l)) by left.
      case_bool_decide; [| done].
      destruct (heap p !! x) as [e |]; simpl; [| done].
      unfold with_classList; simpl. by rewrite token_add_idem.
    + rewrite (bool_decide_eq_false_2 (k = x)) by done.
      case_bool_decide as E1; case_bool_decide as E2; try done.
      * exfalso. apply E2. by right.
      * exfalso. apply elem_of_cons in E2 as [? | ?]; done.
Qed.

Section ScrollEvent.

Variable beyond :
  string -> gmap NodeId Element -> list NodeId -> option (list NodeId).

Lemma dispatchScroll_eq (s : Script) (p : Page) :
  dispatchScroll beyond s p
  = foldl reveal_one (exec (stickyNavbarOnScroll beyond) p)
      (revealElements s).
Proof.
  unfold dispatchScroll, listener, exec.
  rewrite stickyNavbarOnScroll_eq. simpl. by rewrite reveal_fold.
Qed.

Lemma sticky_lookup (p : Page) (k : NodeId) :
  heap (exec (stickyNavbarOnScroll beyond) p) !! k =
  if bool_decide (first_with_class "navbar" p = Some k)
  then with_classList
         (if Qlt_bool 50 (scrollY p) then token_add "sticky"
          else token_remove "sticky") <$> heap p !! k
  else heap p !! k.
Proof.
  unfold exec. rewrite stickyNavbarOnScroll_eq. cbn [snd].
  destruct (first_with_class "navbar" p) as [n |]; cbn [heap set_heap].
  - rewrite lookup_alter. destruct (decide (n = k)) as [-> | Hne].
    + by rewrite bool_decide_eq_true_2.
    + rewrite bool_decide_eq_false_2; [done | congruence].
  - by rewrite bool_decide_eq_false_2.
Qed.

Lemma sticky_uncaught (p : Page) :
  uncaught (exec (stickyNavbarOnScroll beyond) p) = uncaught p.
Proof.
  unfold exec. rewrite stickyNavbarOnScroll_eq. simpl.
  by destruct (first_with_class "navbar" p).
Qed.

(** X6.  Sticky navbar, what the listener leaves alone: it never throws
    and makes no host call; every element other than the first one with
    class [navbar] is exactly as before (a second navbar, or every
    element when there is none); on the navbar itself the other classes
    stay as they were, in their order. *)
Theorem sticky_touches_only_the_first_navbar (p : Page) :
  fst (stickyNavbarOnScroll beyond p) = Normal tt
  /\ calls (exec (stickyNavbarOnScroll beyond) p) = calls p
  /\ uncaught (exec (stickyNavbarOnScroll beyond) p) = uncaught p
  /\ (forall n, first_with_class "navbar" p <> Some n ->
        heap (exec (stickyNavbarOnScroll beyond) p) !! n = heap p !! n)
  /\ (forall n e, first_with_class "navbar" p = Some n ->
        heap p !! n = Some e ->
        exists e',
          heap (exec (stickyNavbarOnScroll beyond) p) !! n = Some e'
          /\ localName e' = localName e /\ elemId e' = elemId e
          /\ hash e' = hash e /\ parentElement e' = parentElement e
          /\ token_remove "sticky" (classList e')
             = token_remove "sticky" (classList e)).
Proof.
  split; [by rewrite stickyNavbarOnScroll_eq |].
  split; [apply sticky_calls |].
  split; [apply sticky_uncaught |].
  split.
  - intros n Hn. by rewrite sticky_lookup, bool_decide_eq_false_2.
  - intros n e Hn He. rewrite sticky_lookup, bool_decide_eq_true_2, He by done.
    simpl. eexists; split; [done |]. simpl. repeat split.
    destruct (Qlt_bool 50 (scrollY p));
      [apply token_remove_add | apply token_remove_idem].
Qed.

Lemma scroll_event_frame_of (s : Script) (p : Page) :
  frame ["sticky"; "visible"] p (dispatchScroll beyond s p).
Proof.
  rewrite dispatchScroll_eq. eapply frame_trans.
  - apply (frame_mono ["sticky"]); [| apply sticky_frame].
    intros c Hc'. apply list_elem_of_singleton in Hc' as ->. by left.
  - apply (frame_mono ["visible"]); [| apply reveal_fold_frame].
    intros c Hc'. apply list_elem_of_singleton in Hc' as ->. right. by left.
Qed.

(** X7.  A scroll event as a whole: neither listener throws; the only
    host calls are the [getBoundingClientRect] of the captured reveal
    elements, one each and in their order; the window and the document
    are as before, and so is every element up to the classes [sticky]
    and [visible]. *)
Theorem scroll_event_effects (s : Script) (p : Page) :
  uncaught (dispatchScroll beyond s p) = uncaught p
  /\ calls (dispatchScroll beyond s p)
     = calls p ++ map GetBoundingClientRect (revealElements s)
  /\ frame ["sticky"; "visible"] p (dispatchScroll beyond s p).
Proof.
  split; [| split; [| apply scroll_event_frame_of]].
  all: rewrite dispatchScroll_eq.
  all: destruct (reveal_fold_calls (revealElements s)
                   (exec (stickyNavbarOnScroll beyond) p)) as [Hc Hu].
  - by rewrite Hu, sticky_uncaught.
  - by rewrite Hc, sticky_calls.
Qed.

End ScrollEvent.

Lemma above_threshold_true (p : Page) (el : NodeId) :
  above_threshold p el = true <->
  (rectTop p el < inject_Z (innerHeight p - 100))%Q.
Proof. apply Qlt_bool_true. Qed.

Lemma has_class_lookup (p q : Page) (n : NodeId) (c : string) :
  heap q !! n = heap p !! n -> has_class q n c = has_class p n c.
Proof. unfold has_class. by intros ->. Qed.

Section ScrollExact.

Variable beyond :
  string -> gmap NodeId Element -> list NodeId -> option (list NodeId).

Lemma dispatchScroll_lookup (s : Script) (p : Page) (k : NodeId) :
  heap (dispatchScroll beyond s p) !! k =
  (if bool_decide (k ∈ revealElements s) && above_threshold p k
   then fmap (with_classList (token_add "visible")) else id)
    ((if bool_decide (first_with_class "navbar" p = Some k)
      then fmap (with_classList
                   (if Qlt_bool 50 (scrollY p) then token_add "sticky"
                    else token_remove "sticky"))
      else id) (heap p !! k)).
Proof.
  rewrite dispatchScroll_eq, reveal_fold_lookup, sticky_lookup.
  destruct (sticky_frame beyond p) as [(_ & _ & Hi & Ht) _].
  assert (Ha : above_threshold (exec (stickyNavbarOnScroll beyond) p) k
               = above_threshold p k).
  { unfold above_threshold. by rewrite Hi, Ht. }
  rewrite Ha.
  destruct (bool_decide (k ∈ revealElements s) && above_threshold p k);
    by destruct (bool_decide (first_with_class "navbar" p = Some k)).
Qed.

Lemma dispatchScroll_visible (s : Script) (p : Page) (el : NodeId) :
  has_class (dispatchScroll beyond s p) el "visible" = true <->
  has_class p el "visible" = true
  \/ (el ∈ revealElements s /\ is_Some (heap p !! el)
      /\ (rectTop p el < inject_Z (innerHeight p - 100))%Q).
Proof.
  rewrite <- above_threshold_true.
  rewrite !has_class_true, dispatchScroll_lookup.
  set (f := if Qlt_bool 50 (scrollY p) then token_add "sticky"
            else token_remove "sticky").
  assert (Hf : forall l, "visible" ∈ f l <-> "visible" ∈ l).
  { intros l. subst f. destruct (Qlt_bool 50 (scrollY p)).
    - rewrite elem_of_token_add. split; [by intros [? | ?] | auto].
    - rewrite elem_of_token_remove. split; [by intros [_ ?] | done]. }
  set (e1 := (if bool_decide (first_with_class "navbar" p = Some el)
              then fmap (with_classList f) else id) (heap p !! el)).
  assert (H1 : forall e', e1 = Some e' ->
                 exists e, heap p !! el = Some e
                           /\ ("visible" ∈ classList e'
                               <-> "visible" ∈ classList e)).
  { subst e1. intros e'.
    destruct (bool_decide (first_with_class "navbar" p = Some el));
      destruct (heap p !! el) as [e |]; simpl; intros [= <-];
      exists e; split; try done. simpl. apply Hf. }
  assert (H2 : forall e, heap p !! el = Some e ->
                 exists e', e1 = Some e'
                            /\ ("visible" ∈ classList e'
                                <-> "visible" ∈ classList e)).
  { subst e1. intros e ->.
    destruct (bool_decide (first_with_class "navbar" p = Some el)); simpl;
      eexists; split; try done. simpl. apply Hf. }
  destruct (bool_decide (el ∈ revealElements s)) eqn:E1;
    [apply bool_decide_eq_true in E1 | apply bool_decide_eq_false in E1];
    destruct (above_threshold p el) eqn:E2; simpl.
  - split.
    + intros (e2 & He2 & _). destruct e1 as [e' |]; [| done].
      destruct (H1 e' eq_refl) as (e & He & _). right. eauto.
    + intros H.
      assert (He : is_Some (heap p !! el)).
      { destruct H as [(e & He & _) | (_ & He & _)]; eauto. }
      destruct He as [e He]. destruct (H2 e He) as (e' & -> & _). simpl.
      eexists; split; [done |]. simpl. apply elem_of_token_add. by left.
  - split.
    + intros (e' & He' & Hin). destruct (H1 e' He') as (e & He & Hv).
      left. exists e. split; [done | by apply Hv].
    + intros [(e & He & Hin) | (_ & _ & ?)]; [| done].
      destruct (H2 e He) as (e' & He' & Hv). exists e'. split; [done |].
      by apply Hv.
  - split.
    + intros (e' & He' & Hin). destruct (H1 e' He') as (e & He & Hv).
      left. exists e. split; [done | by apply Hv].
    + intros [(e & He & Hin) | (? & _ & _)]; [| done].
      destruct (H2 e He) as (e' & He' & Hv). exists e'. split; [done |].
      by apply Hv.
  - split.
    + intros (e' & He' & Hin). destruct (H1 e' He') as (e & He & Hv).
      left. exists e. split; [done | by apply Hv].
    + intros [(e & He & Hin) | (? & _ & _)]; [| done].
      destruct (H2 e He) as (e' & He' & Hv). exists e'. split; [done |].
      by apply Hv.
Qed.

(** X10.  Scroll reveal, exactly: after a scroll event an element carries
    [visible] if and only if it carried it before or it is one of the
    captured reveal elements and its top edge is above
    [innerHeight - 100].  A captured element at or below the threshold is
    not marked, and an element outside the captured list never is. *)
Theorem scroll_event_reveals_exactly (s : Script) (p : Page) (el : NodeId) :
  has_class (dispatchScroll beyond s p) el "visible" = true <->
  has_class p el "visible" = true
  \/ (el ∈ revealElements s /\ is_Some (heap p !! el)
      /\ (rectTop p el < inject_Z (innerHeight p - 100))%Q).
Proof. apply dispatchScroll_visible. Qed.

End ScrollExact.

Lemma not_in_two (c a b : string) : c <> a -> c <> b -> c ∉ [a; b].
Proof.
  intros Ha Hb [-> | [-> | H%elem_of_nil]%elem_of_cons]%elem_of_cons; done.
Qed.

(** A class list that went through the sticky update and the reveal
    update is a fixed point of both. *)
Lemma sticky_visible_fixed (b : bool) (l : list string) :
  let f := if b then token_add "sticky" else token_remove "sticky" in
  f (token_add "visible" (f l)) = token_add "visible" (f l).
Proof.
  destruct b; simpl.
  - apply token_add_in. apply elem_of_token_add. right.
    apply elem_of_token_add. by left.
  - apply token_remove_notin. rewrite elem_of_token_add, elem_of_token_remove.
    intros [? | [? _]]; done.
Qed.

Lemma sticky_update_idem (b : bool) (l : list string) :
  let f := if b then token_add "sticky" else token_remove "sticky" in
  f (f l) = f l.
Proof. destruct b; [apply token_add_idem | apply token_remove_idem]. Qed.

Section ScrollTwice.

Variable beyond :
  string -> gmap NodeId Element -> list NodeId -> option (list NodeId).

(** X11.  A scroll event is idempotent on the elements: a second scroll
    event at the same offset and layout leaves every element as the first
    one left it. *)
Theorem scroll_event_twice_is_once (s : Script) (p : Page) :
  heap (dispatchScroll beyond s (dispatchScroll beyond s p))
  = heap (dispatchScroll beyond s p).
Proof.
  apply map_eq. intros k.
  destruct (scroll_event_frame_of beyond s p) as [(Hd & Hy & Hi & Ht) Hf].
  rewrite (dispatchScroll_lookup beyond s (dispatchScroll beyond s p)).
  assert (Hn : first_with_class "navbar" (dispatchScroll beyond s p)
               = first_with_class "navbar" p).
  { apply (first_with_class_frame ["sticky"; "visible"]); try done.
    by apply not_in_two. }
  assert (Ha : above_threshold (dispatchScroll beyond s p) k
               = above_threshold p k).
  { unfold above_threshold. by rewrite Hi, Ht. }
  rewrite Hn, Ha, Hy, dispatchScroll_lookup.
  pose proof (sticky_visible_fixed (Qlt_bool 50 (scrollY p))) as Hfix.
  pose proof (sticky_update_idem (Qlt_bool 50 (scrollY p))) as Hidem.
  simpl in Hfix, Hidem.
  destruct (bool_decide (k ∈ revealElements s) && above_threshold p k);
    destruct (bool_decide (first_with_class "navbar" p = Some k));
    destruct (heap p !! k) as [e |]; simpl; try done;
    unfold with_classList; simpl; do 2 f_equal.
  - by rewrite Hfix, token_add_idem.
  - apply token_add_idem.
  - apply Hidem.
Qed.

End ScrollTwice.

(** ** The effect of a click, and of any sequence of events *)

Lemma listener_normal (m : Js unit) (p : Page) :
  fst (m p) = Normal tt -> listener m p = exec m p.
Proof. unfold listener, exec. destruct (m p) as [[[] | e] p']; by simpl. Qed.

Lemma listener_uncaught (m : Js unit) (p : Page) :
  uncaught (listener m p) = uncaught (exec m p)
  \/ exists e, uncaught (listener m p) = uncaught (exec m p) ++ [e].
Proof.
  unfold listener, exec. destruct (m p) as [[[] | e] p']; simpl; eauto.
Qed.

Section ClickEvent.

Variable beyond :
  string -> gmap NodeId Element -> list NodeId -> option (list NodeId).

Lemma smooth_uncaught (this : NodeId) (p : Page) :
  uncaught (exec (smoothScrollOnClick beyond this) p) = uncaught p.
Proof.
  unfold exec. rewrite smoothScrollOnClick_eq.
  destruct (heap p !! this ≫= hash) as [h |]; [| done].
  destruct (negb (h =? EmptyString)%string && String.prefix "#" h); [| done].
  simpl. destruct (select beyond h (add_call PreventDefault p)) as [l |];
    [| done].
  by destruct (head l).
Qed.

Lemma active_listener (links : list NodeId) (link : NodeId) (p : Page) :
  listener (activeLinkOnClick links link) p
  = set_heap (fun h => alter (with_classList (token_add "active")) link
                         (strip_all "active" links h)) p.
Proof.
  rewrite listener_normal; unfold exec; by rewrite activeLinkOnClick_eq.
Qed.

Lemma active_lookup_other (links : list NodeId) (link k : NodeId)
    (p : Page) :
  k ∉ links -> k <> link ->
  heap (exec (activeLinkOnClick links link) p) !! k = heap p !! k.
Proof.
  intros Hk Hne. unfold exec. rewrite activeLinkOnClick_eq. simpl.
  rewrite lookup_alter_ne by done.
  by rewrite strip_all_lookup, bool_decide_eq_false_2.
Qed.

(** The page the smooth-scroll listener leaves when the click reaches
    it. *)
Lemma click_first_listener (s : Script) (target : NodeId) (p : Page) :
  exists p1,
    clickListenersAt beyond s target p
    = (if bool_decide (target ∈ links s)
       then listener (activeLinkOnClick (links s) target) p1 else p1)
    /\ heap p1 = heap p /\ same_window p p1
    /\ (uncaught p1 = uncaught p
        \/ exists e, uncaught p1 = uncaught p ++ [e]).
Proof.
  unfold clickListenersAt.
  destruct (bool_decide (target ∈ clickables s)).
  - eexists. split; [done |].
    destruct (listener_fields (smoothScrollOnClick beyond target) p)
      as (Hh & Hd & Hy & Hi & Ht & _).
    destruct (smooth_heap beyond target p) as (Hh' & Hd' & Hy' & Hi' & Ht').
    split; [congruence |]. split; [repeat split; congruence |].
    rewrite <- (smooth_uncaught target p). apply listener_uncaught.
  - exists p. repeat split. by left.
Qed.

(** X9.  Over any sequence of scroll, click and resize events the script
    creates and removes nothing: the document lists the same elements in
    the same order, the same element objects exist, and each has its tag,
    id, [hash] and parent, and its classes other than [sticky], [active]
    and [visible]. *)
Theorem events_keep_the_elements (s : Script) (evs : list Event) (p : Page) :
  document (run beyond s evs p) = document p
  /\ dom (heap (run beyond s evs p)) = dom (heap p)
  /\ heap_frame script_classes (heap p) (heap (run beyond s evs p)).
Proof.
  destruct (run_frame beyond s evs p) as [Hd Hf].
  split; [done | split; [| done]].
  apply set_eq. intros n. rewrite !elem_of_dom. symmetry.
  by apply (heap_frame_is_Some script_classes).
Qed.

Lemma scroll_visible_untracked (s : Script) (p : Page) (el : NodeId) :
  el ∉ revealElements s ->
  has_class (dispatchScroll beyond s p) el "visible"
  = has_class p el "visible".
Proof.
  intros Hel. unfold has_class. rewrite dispatchScroll_lookup.
  rewrite (bool_decide_eq_false_2 _ Hel). simpl.
  destruct (bool_decide (first_with_class "navbar" p = Some el));
    [| done].
  destruct (heap p !! el) as [e |]; simpl; [| done].
  unfold contains. apply bool_decide_ext.
  destruct (Qlt_bool 50 (scrollY p)).
  - rewrite elem_of_token_add. split; [by intros [? | ?] | auto].
  - rewrite elem_of_token_remove. split; [by intros [_ ?] | done].
Qed.

Lemma clickListenersAt_lookup_outside (s : Script) (node el : NodeId)
    (p : Page) :
  el ∉ links s ->
  heap (clickListenersAt beyond s node p) !! el = heap p !! el.
Proof.
  intros Hel.
  destruct (click_first_listener s node p) as (p1 & -> & Hh & _).
  rewrite <- Hh.
  destruct (decide (node ∈ links s)) as [Hin | Hout].
  - rewrite bool_decide_eq_true_2 by done.
    rewrite listener_normal by (by rewrite activeLinkOnClick_eq).
    apply active_lookup_other; [done |]. by intros ->.
  - by rewrite bool_decide_eq_false_2.
Qed.

(** X12.  The reveal list is a snapshot: an element outside the captured
    list (one that got the class [reveal] after the script was loaded, or
    never had it) keeps its [visible] state, set or not, through any
    sequence of events, wherever it is scrolled. *)
Theorem untracked_elements_are_never_revealed (s : Script)
    (evs : list Event) (p : Page) (el : NodeId) :
  el ∉ revealElements s ->
  has_class (run beyond s evs p) el "visible" = has_class p el "visible".
Proof.
  intros Hel. unfold run. revert p.
  induction evs as [| ev evs IH]; intros p; simpl; [done |].
  rewrite IH. destruct ev as [y tops | target | height]; simpl.
  - unfold scrollEvent. by rewrite scroll_visible_untracked.
  - destruct (dispatchClick_active_frame beyond s target p) as [_ Hf].
    apply (has_class_frame ["active"] p); [done |].
    by intros ?%list_elem_of_singleton.
  - done.
Qed.

(** X13.  The list of navigation links is a snapshot: an element outside
    the captured list keeps its [active] state, set or not, through any
    sequence of events; no click gives it the class or takes it away. *)
Theorem only_captured_links_change_active (s : Script) (evs : list Event)
    (p : Page) (el : NodeId) :
  el ∉ links s ->
  has_class (run beyond s evs p) el "active" = has_class p el "active".
Proof.
  intros Hel. unfold run. revert p.
  induction evs as [| ev evs IH]; intros p; simpl; [done |].
  rewrite IH. destruct ev as [y tops | target | height]; simpl.
  - unfold scrollEvent.
    destruct (scroll_event_frame_of beyond s (scrolled y tops p)) as [_ Hf].
    apply (has_class_frame ["sticky"; "visible"] (scrolled y tops p));
      [done | by apply not_in_two].
  - apply has_class_lookup. unfold dispatchClick.
    generalize (propagationPath p target). intros path. revert p.
    induction path as [| n path IHp]; intros p; simpl; [done |].
    rewrite IHp. by apply clickListenersAt_lookup_outside.
  - done.
Qed.

End ClickEvent.

(** ** What the script captures when it is loaded *)

Lemma matches_up_one (h : gmap NodeId Element) (c : Selector.compound)
    (anc : list NodeId) :
  Selector.matches_up h [c] anc
  = existsb (Selector.matches_compound h c) anc.
Proof.
  induction anc as [| a anc IH]; simpl; [done |].
  destruct (Selector.matches_compound h c a); simpl; [| done].
  by rewrite matches_up_nil.
Qed.

Lemma existsb_pointwise (f g : NodeId -> bool) (l : list NodeId) :
  (forall a, f a = g a) -> existsb f l = existsb g l.
Proof. intros H. induction l as [| a l IH]; simpl; by rewrite ?H, ?IH. Qed.

Lemma matches_clickable (p : Page) (n : NodeId) :
  Selector.matches (heap p)
    [[[Selector.Tag "a"]]; [[Selector.Class "btn"]]] n
  = is_clickable p n.
Proof.
  unfold Selector.matches, Selector.matches_complex,
    Selector.matches_compound, is_clickable; simpl.
  destruct (heap p !! n) as [e |]; simpl; [| done].
  by rewrite !matches_up_nil, !Bool.andb_true_r, Bool.orb_false_r.
Qed.

Lemma matches_nav_link (p : Page) (n : NodeId) :
  Selector.matches (heap p)
    [[[Selector.Class "nav-links"]; [Selector.Tag "a"]]] n
  = is_nav_link p n.
Proof.
  unfold Selector.matches, Selector.matches_complex, is_nav_link; simpl.
  rewrite Bool.orb_false_r, matches_up_one. f_equal.
  - unfold Selector.matches_compound.
    destruct (heap p !! n) as [e |]; simpl; [| done].
    by rewrite Bool.andb_true_r.
  - apply existsb_pointwise. intros a.
    unfold Selector.matches_compound, has_class.
    destruct (heap p !! a) as [e |]; simpl; [| done].
    by rewrite Bool.andb_true_r.
Qed.

Section Loading.

Variable beyond :
  string -> gmap NodeId Element -> list NodeId -> option (list NodeId).

Lemma select_clickables (p : Page) :
  select beyond "a, .btn" p
  = Some (List.filter (is_clickable p) (document p)).
Proof.
  unfold select.
  change (Selector.in_grammar "a, .btn") with true.
  change (Selector.parse "a, .btn")
    with (Some [[[Selector.Tag "a"]]; [[Selector.Class "btn"]]]).
  simpl. f_equal. apply List.filter_ext. intros n. apply matches_clickable.
Qed.

Lemma select_nav_links (p : Page) :
  select beyond ".nav-links a" p
  = Some (List.filter (is_nav_link p) (document p)).
Proof.
  unfold select.
  change (Selector.in_grammar ".nav-links a") with true.
  change (Selector.parse ".nav-links a")
    with (Some [[[Selector.Class "nav-links"]; [Selector.Tag "a"]]]).
  simpl. f_equal. apply List.filter_ext. intros n. apply matches_nav_link.
Qed.

Lemma onDOMContentLoaded_run (p : Page) :
  onDOMContentLoaded beyond p
  = (Normal
       (mkScript (List.filter (is_clickable p) (document p))
          (List.filter (is_nav_link p) (document p))
          (List.filter (fun n => has_class p n "reveal") (document p))),
     foldl reveal_one p
       (List.filter (fun n => has_class p n "reveal") (document p))).
Proof.
  unfold onDOMContentLoaded, mbind, Js_bind, querySelectorAll.
  rewrite select_clickables, select_nav_links.
  rewrite (select_class_literal beyond "reveal") by reflexivity.
  by rewrite reveal_fold.
Qed.

(** X15.  Loading never throws, and captures, each in tree order: for
    smooth scroll the elements of the document that are an [a] or carry
    the class [btn]; for the active link the [a] elements that have an
    ancestor with class [nav-links]; for the reveal the elements with
    class [reveal]. *)
Theorem load_captures (p : Page) :
  fst (onDOMContentLoaded beyond p)
  = Normal
      (mkScript (List.filter (is_clickable p) (document p))
         (List.filter (is_nav_link p) (document p))
         (List.filter (fun n => has_class p n "reveal") (document p)))
  /\ uncaught (exec (onDOMContentLoaded beyond) p) = uncaught p.
Proof.
  unfold exec. rewrite onDOMContentLoaded_run. split; [done |]. simpl.
  by destruct (reveal_fold_calls
                 (List.filter (fun n => has_class p n "reveal") (document p))
                 p) as [_ ->].
Qed.

(** X16.  The captured lists: on a document that lists each element once,
    no element is captured twice in a list (an [a] with class [btn] gets
    one smooth-scroll listener, not two); every captured element is an
    element object of the document; and every navigation link is also in
    the smooth-scroll list, so a click on it runs both listeners. *)
Theorem captured_lists_are_sets (p : Page) (s : Script) :
  NoDup (document p) ->
  fst (onDOMContentLoaded beyond p) = Normal s ->
  NoDup (clickables s) /\ NoDup (links s) /\ NoDup (revealElements s)
  /\ (forall n, n ∈ links s -> n ∈ clickables s)
  /\ (forall n, n ∈ clickables s \/ n ∈ revealElements s ->
        n ∈ document p /\ is_Some (heap p !! n)).
Proof.
  intros Hnd. rewrite onDOMContentLoaded_run. simpl. intros [= <-]. simpl.
  split; [by apply NoDup_ListNoDup, List.NoDup_filter, NoDup_ListNoDup |].
  split; [by apply NoDup_ListNoDup, List.NoDup_filter, NoDup_ListNoDup |].
  split; [by apply NoDup_ListNoDup, List.NoDup_filter, NoDup_ListNoDup |].
  split.
  - intros n [Hn Hin]%elem_of_filter_bool. apply elem_of_filter_bool.
    split; [| done]. unfold is_nav_link in Hn. unfold is_clickable.
    destruct (heap p !! n) as [e |]; [| done].
    apply andb_prop in Hn as [-> _]. done.
  - intros n [[Hn Hin]%elem_of_filter_bool | [Hn Hin]%elem_of_filter_bool].
    + split; [done |]. unfold is_clickable in Hn.
      destruct (heap p !! n); [eauto | done].
    + split; [done |]. by eapply has_class_is_Some.
Qed.

Lemma onDOMContentLoaded_visible (p : Page) (el : NodeId) :
  has_class (exec (onDOMContentLoaded beyond) p) el "visible" = true
  <-> has_class p el "visible" = true
      \/ (el ∈ document p /\ has_class p el "reveal" = true
          /\ (rectTop p el < inject_Z (innerHeight p - 100))%Q).
Proof.
  unfold exec. rewrite onDOMContentLoaded_run. simpl.
  rewrite <- above_threshold_true.
  rewrite (has_class_true _ el "visible"), (has_class_true p el "visible").
  rewrite reveal_fold_lookup.
  destruct (bool_decide
              (el ∈ List.filter (fun n => has_class p n "reveal")
                      (document p))) eqn:E;
    [apply bool_decide_eq_true in E | apply bool_decide_eq_false in E];
    rewrite elem_of_filter_bool in E;
    destruct (above_threshold p el) eqn:Ea; simpl.
  - destruct E as [Hr Hin]. split; [by right |]. intros _.
    apply has_class_is_Some in Hr as [e He]. rewrite He. simpl.
    eexists; split; [done |]. simpl. apply elem_of_token_add. by left.
  - split; [by left |]. by intros [? | (_ & _ & ?)].
  - split; [by left |]. intros [? | (? & ? & _)]; [done |]. exfalso. auto.
  - split; [by left |]. by intros [? | (_ & _ & ?)].
Qed.

(** X17.  Loading changes nothing but [visible]: the window and the
    document are as before and every element is as before up to that one
    class, so no link is made active and no navbar sticky by loading; and
    after loading an element carries [visible] if and only if it carried
    it before or it is an element of the document with class [reveal]
    whose top edge is above [innerHeight - 100]. *)
Theorem load_marks_exactly (p : Page) (el : NodeId) :
  frame ["visible"] p (exec (onDOMContentLoaded beyond) p)
  /\ (has_class (exec (onDOMContentLoaded beyond) p) el "visible" = true
      <-> has_class p el "visible" = true
          \/ (el ∈ document p /\ has_class p el "reveal" = true
              /\ (rectTop p el < inject_Z (innerHeight p - 100))%Q)).
Proof.
  split; [| apply onDOMContentLoaded_visible].
  unfold exec. rewrite onDOMContentLoaded_run. simpl.
  apply reveal_fold_frame.
Qed.

End Loading.

(** ** The sample page again *)

Lemma untracked_elements_are_never_revealed_witness :
  (5 ∉ revealElements (mkScript [2; 3; 4; 8; 9; 10] [2; 3; 4] []))
  /\ has_class
       (run Sample.strict (mkScript [2; 3; 4; 8; 9; 10] [2; 3; 4] [])
          [Scroll 0 Sample.tops; Click 3; Scroll 10 Sample.tops]
          Sample.page)
       5 "visible"
     = has_class Sample.page 5 "visible".
Proof.
  assert (H : 5 ∉ revealElements
                    (mkScript [2; 3; 4; 8; 9; 10] [2; 3; 4] []))
    by by_decide.
  split; [exact H |].
  exact (untracked_elements_are_never_revealed Sample.strict _
           [Scroll 0 Sample.tops; Click 3; Scroll 10 Sample.tops]
           Sample.page 5 H).
Defined.

Lemma only_captured_links_change_active_witness :
  (10 ∉ links Sample.script)
  /\ has_class
       (run Sample.strict Sample.script [Click 10; Click 3] Sample.page)
       10 "active"
     = has_class Sample.page 10 "active".
Proof.
  assert (H : 10 ∉ links Sample.script) by by_decide.
  split; [exact H |].
  exact (only_captured_links_change_active Sample.strict Sample.script
           [Click 10; Click 3] Sample.page 10 H).
Defined.

Lemma captured_lists_are_sets_witness :
  NoDup (document Sample.page)
  /\ fst (onDOMContentLoaded Sample.strict Sample.page)
     = Normal Sample.script
  /\ NoDup (clickables Sample.script)
  /\ forall n, n ∈ links Sample.script -> n ∈ clickables Sample.script.
Proof.
  assert (H1 : NoDup (document Sample.page)) by by_decide.
  assert (H2 : fst (onDOMContentLoaded Sample.strict Sample.page)
               = Normal Sample.script) by by_compute.
  split; [exact H1 | split; [exact H2 |]].
  destruct (captured_lists_are_sets Sample.strict Sample.page Sample.script
              H1 H2) as (Ha & _ & _ & Hb & _).
  exact (conj Ha Hb).
Defined.

(** * A click along its propagation path *)

(** ** The path is kept by the events *)

Lemma ancestors_frame (cs : list string) (h h' : gmap NodeId Element)
    (fuel : nat) (n : NodeId) :
  heap_frame cs h h' ->
  Selector.ancestors fuel h' n = Selector.ancestors fuel h n.
Proof.
  intros Hf. revert n. induction fuel as [| fuel IH]; intros n; [done |].
  cbn [Selector.ancestors].
  assert (H : h' !! n ≫= parentElement = h !! n ≫= parentElement).
  { specialize (Hf n). destruct Hf as [e e' (_ & _ & _ & Hp & _) |]; done. }
  rewrite H. destruct (h !! n ≫= parentElement); [by rewrite IH | done].
Qed.

Lemma heap_frame_size (cs : list string) (h h' : gmap NodeId Element) :
  heap_frame cs h h' -> size h' = size h.
Proof.
  intros Hf. rewrite <- !size_dom. f_equal. apply set_eq. intros n.
  rewrite !elem_of_dom. symmetry. by apply (heap_frame_is_Some cs).
Qed.

Lemma propagationPath_frame (cs : list string) (p q : Page)
    (target : NodeId) :
  heap_frame cs (heap p) (heap q) ->
  propagationPath q target = propagationPath p target.
Proof.
  intros Hf. unfold propagationPath.
  by rewrite (heap_frame_size cs _ _ Hf), (ancestors_frame cs _ _ _ _ Hf).
Qed.

(** ** The captured links on a path *)

Lemma links_on_nil (links path : list NodeId) :
  (forall n, n ∈ path -> n ∉ links) -> links_on links path = [].
Proof.
  unfold links_on. induction path as [| n path IH]; intros H; simpl; [done |].
  rewrite bool_decide_eq_false_2 by (apply H; left).
  apply IH. intros m Hm. apply H. by right.
Qed.

Lemma outermost_link_in (links path : list NodeId) (m : NodeId) :
  outermost_link links path = Some m -> m ∈ links /\ m ∈ path.
Proof.
  unfold outermost_link, links_on. intros [l' Hl]%last_Some.
  assert (Hm : m ∈ List.filter (fun n => bool_decide (n ∈ links)) path).
  { rewrite Hl. apply elem_of_app. right. by left. }
  apply elem_of_filter_bool in Hm as [Hm ?].
  by apply bool_decide_eq_true in Hm.
Qed.

Lemma outermost_link_alone (links : list NodeId) (link : NodeId)
    (above : list NodeId) :
  link ∈ links -> (forall a, a ∈ above -> a ∉ links) ->
  outermost_link links (link :: above) = Some link.
Proof.
  intros Hl Ha. unfold outermost_link, links_on. simpl.
  rewrite bool_decide_eq_true_2 by done.
  fold (links_on links above). by rewrite links_on_nil.
Qed.

(** ** The store after the listeners along a path *)

Lemma activate_spec (links : list NodeId) (link : NodeId) (p : Page) :
  heap (exec (activeLinkOnClick links link) p)
  = activate links link (heap p).
Proof. unfold exec. by rewrite activeLinkOnClick_eq. Qed.

(** A listener of a captured link undoes what the listener of another
    captured link did before it. *)
Lemma strip_all_activate (links : list NodeId) (a : NodeId)
    (h : gmap NodeId Element) :
  a ∈ links ->
  strip_all "active" links (activate links a h) = strip_all "active" links h.
Proof.
  intros Ha. apply map_eq. intros k. unfold activate.
  rewrite !strip_all_lookup, lookup_alter, !strip_all_lookup.
  destruct (decide (a = k)) as [<- | Hne].
  - rewrite bool_decide_eq_true_2 by done.
    destruct (h !! a) as [e |]; simpl; [| done].
    unfold with_classList; simpl.
    by rewrite token_remove_add, token_remove_idem.
  - destruct (bool_decide (k ∈ links)); [| done].
    destruct (h !! k) as [e |]; simpl; [| done].
    unfold with_classList; simpl. by rewrite token_remove_idem.
Qed.

Lemma activate_activate (links : list NodeId) (a b : NodeId)
    (h : gmap NodeId Element) :
  a ∈ links -> activate links b (activate links a h) = activate links b h.
Proof.
  intros Ha. unfold activate at 1 3. by rewrite strip_all_activate.
Qed.

Section ClickPath.

Variable beyond :
  string -> gmap NodeId Element -> list NodeId -> option (list NodeId).

Lemma clickListenersAt_heap_cases (s : Script) (node : NodeId) (p : Page) :
  heap (clickListenersAt beyond s node p)
  = if bool_decide (node ∈ links s)
    then activate (links s) node (heap p) else heap p.
Proof.
  destruct (click_first_listener beyond s node p) as (p1 & -> & Hh & _).
  destruct (bool_decide (node ∈ links s)); [| done].
  by rewrite active_listener, <- Hh.
Qed.

Lemma clickListenersAt_skip (s : Script) (node : NodeId) (p : Page) :
  node ∉ clickables s -> node ∉ links s ->
  clickListenersAt beyond s node p = p.
Proof.
  intros Hc Hl. unfold clickListenersAt.
  by rewrite !bool_decide_eq_false_2.
Qed.

(** The store after the listeners along [path]: what the listener of the
    outermost captured link on the path makes of the store before, and
    the store before where the path has no captured link. *)
Lemma click_path_heap (s : Script) (path : list NodeId) (p : Page) :
  heap (foldl (fun q node => clickListenersAt beyond s node q) p path)
  = match outermost_link (links s) path with
    | Some m => activate (links s) m (heap p)
    | None => heap p
    end.
Proof.
  unfold outermost_link, links_on. revert p.
  induction path as [| n path IH]; intros p; simpl; [done |].
  rewrite IH, clickListenersAt_heap_cases.
  destruct (bool_decide (n ∈ links s)) eqn:En; [| done].
  apply bool_decide_eq_true in En.
  destruct (List.filter (fun n => bool_decide (n ∈ links s)) path)
    as [| x l] eqn:El; [done |].
  rewrite last_cons_cons.
  destruct (last (x :: l)) as [m |] eqn:Em.
  - by apply activate_activate.
  - by apply last_None in Em.
Qed.

Lemma dispatchClick_heap (s : Script) (target : NodeId) (p : Page) :
  heap (dispatchClick beyond s target p)
  = match outermost_link (links s) (propagationPath p target) with
    | Some m => activate (links s) m (heap p)
    | None => heap p
    end.
Proof. apply click_path_heap. Qed.

Lemma dispatchClick_alone (s : Script) (target : NodeId) (p : Page) :
  (forall a, a ∈ Selector.ancestors (size (heap p)) (heap p) target ->
             (a ∉ clickables s) /\ (a ∉ links s)) ->
  dispatchClick beyond s target p = clickListenersAt beyond s target p.
Proof.
  intros Ha. unfold dispatchClick, propagationPath. simpl.
  generalize (clickListenersAt beyond s target p). intros q.
  induction (Selector.ancestors (size (heap p)) (heap p) target)
    as [| a l IH] in q, Ha |- *; simpl; [done |].
  destruct (Ha a) as [Hc Hl]; [left |].
  rewrite clickListenersAt_skip by done.
  apply IH. intros b Hb. apply Ha. by right.
Qed.

Lemma clickListenersAt_uncaught (s : Script) (node : NodeId) (p : Page) :
  exists errs,
    uncaught (clickListenersAt beyond s node p) = uncaught p ++ errs
    /\ length errs <= (if bool_decide (node ∈ clickables s) then 1 else 0).
Proof.
  unfold clickListenersAt.
  set (p1 := if bool_decide (node ∈ clickables s)
             then listener (smoothScrollOnClick beyond node) p else p).
  assert (H1 : exists errs,
             uncaught p1 = uncaught p ++ errs
             /\ length errs
                <= (if bool_decide (node ∈ clickables s) then 1 else 0)).
  { subst p1. destruct (bool_decide (node ∈ clickables s)).
    - destruct (listener_uncaught (smoothScrollOnClick beyond node) p)
        as [H | [e H]]; rewrite smooth_uncaught in H.
      + exists []. by rewrite app_nil_r; split; [| simpl; lia].
      + exists [e]. by split.
    - exists []. by rewrite app_nil_r. }
  destruct (bool_decide (node ∈ links s)); [| done].
  by rewrite active_listener.
Qed.

(** X8.  A click as a whole, with its bubbling: the window and the
    document are as before and every element is as before up to the class
    [active]; a click whose path (the clicked element and its ancestors)
    holds no captured navigation link changes no element at all; and the
    errors that escape are at most one for each captured smooth-scroll
    element on the path. *)
Theorem click_event_effects (s : Script) (target : NodeId) (p : Page) :
  frame ["active"] p (dispatchClick beyond s target p)
  /\ ((forall n, n ∈ propagationPath p target -> n ∉ links s) ->
      heap (dispatchClick beyond s target p) = heap p)
  /\ exists errs,
       uncaught (dispatchClick beyond s target p) = uncaught p ++ errs
       /\ length errs
          <= length (List.filter (fun n => bool_decide (n ∈ clickables s))
                       (propagationPath p target)).
Proof.
  split; [apply dispatchClick_active_frame | split].
  - intros Hno. rewrite dispatchClick_heap. unfold outermost_link.
    by rewrite links_on_nil.
  - unfold dispatchClick. generalize (propagationPath p target).
    intros path. revert p.
    induction path as [| n path IH]; intros p; simpl.
    + exists []. by rewrite app_nil_r.
    + destruct (IH (clickListenersAt beyond s n p)) as (e2 & -> & H2).
      destruct (clickListenersAt_uncaught s n p) as (e1 & -> & H1).
      exists (e1 ++ e2). rewrite app_assoc. split; [done |].
      rewrite length_app.
      destruct (bool_decide (n ∈ clickables s)); simpl; lia.
Qed.

(** X14.  A navigation link with a broken fragment: where the clicked
    link is in both captured lists, none of its ancestors is captured,
    and its fragment is made of name characters without being a CSS
    identifier, the click suppresses the default jump, lets one
    [SyntaxError] escape, scrolls nothing, and the second listener still
    runs: the link is the one active link. *)
Theorem broken_fragment_still_highlights (s : Script) (link : NodeId)
    (i : string) (p : Page) :
  link ∈ clickables s -> link ∈ links s ->
  (forall a, a ∈ Selector.ancestors (size (heap p)) (heap p) link ->
             (a ∉ clickables s) /\ (a ∉ links s)) ->
  forallb Selector.is_name_char (list_ascii_of_string i) = true ->
  Selector.is_ident (list_ascii_of_string i) = false ->
  heap p !! link ≫= hash = Some ("#" ++ i)%string ->
  uncaught (dispatchClick beyond s link p) = uncaught p ++ [SyntaxError]
  /\ calls (dispatchClick beyond s link p) = calls p ++ [PreventDefault]
  /\ forall l, l ∈ links s ->
       (has_class (dispatchClick beyond s link p) l "active" = true
        <-> l = link).
Proof.
  intros Hc Hl Ha Hn Hi Hh.
  assert (Hs : is_Some (heap p !! link)).
  { destruct (heap p !! link); [eauto | done]. }
  rewrite dispatchClick_alone by done.
  split; [| split].
  - unfold clickListenersAt. rewrite !bool_decide_eq_true_2 by done.
    unfold listener at 2.
    rewrite (smooth_scroll_not_identifier beyond link i p Hn Hi Hh).
    by rewrite active_listener.
  - unfold clickListenersAt. rewrite !bool_decide_eq_true_2 by done.
    unfold listener at 2.
    rewrite (smooth_scroll_not_identifier beyond link i p Hn Hi Hh).
    by rewrite active_listener.
  - intros l Hl'. unfold has_class. rewrite clickListenersAt_heap by done.
    by apply active_click_exact.
Qed.

(** The click on an element whose path has a captured link: exactly the
    outermost captured link on the path is left active. *)
Lemma click_activates_outermost_link (s : Script) (target m : NodeId)
    (p : Page) :
  outermost_link (links s) (propagationPath p target) = Some m ->
  is_Some (heap p !! m) ->
  forall l, l ∈ links s ->
    (has_class (dispatchClick beyond s target p) l "active" = true
     <-> l = m).
Proof.
  intros Hm Hs l Hl. unfold has_class.
  rewrite dispatchClick_heap, Hm, <- activate_spec.
  apply active_click_exact; try done.
  by apply outermost_link_in in Hm as [? _].
Qed.

(** C2.  Active link: after any events whatever, a click on a link of the
    captured list that has no captured link among its ancestors leaves
    the class [active] on the clicked link and on no other link of the
    list. *)
Theorem active_link_is_the_clicked_one (s : Script) (p : Page)
    (evs : list Event) (link : NodeId) :
  link ∈ links s -> is_Some (heap p !! link) ->
  (forall a, a ∈ Selector.ancestors (size (heap p)) (heap p) link ->
             a ∉ links s) ->
  forall l, l ∈ links s ->
    (has_class (dispatchClick beyond s link (run beyond s evs p)) l "active"
     = true <-> l = link).
Proof.
  intros Hlink Hs Ha.
  destruct (run_frame beyond s evs p) as (_ & Hf).
  apply click_activates_outermost_link.
  - rewrite (propagationPath_frame script_classes p) by done.
    by apply outermost_link_alone.
  - by apply (heap_frame_is_Some _ _ _ link Hf).
Qed.

(** C9.  The click listener of the active link is idempotent: from any
    class configuration a second run of the listener leaves the page as
    the first left it, and a second click on the same element, with its
    bubbling, leaves every element as the first click left it; where the
    clicked link has no captured link among its ancestors, that state has
    [active] on the clicked link and on no other link of the list. *)
Theorem active_click_twice_is_once (s : Script) (link : NodeId) (p : Page) :
  link ∈ links s -> is_Some (heap p !! link) ->
  exec (activeLinkOnClick (links s) link)
    (exec (activeLinkOnClick (links s) link) p)
  = exec (activeLinkOnClick (links s) link) p
  /\ (forall target,
        heap (dispatchClick beyond s target (dispatchClick beyond s target p))
        = heap (dispatchClick beyond s target p))
  /\ ((forall a, a ∈ Selector.ancestors (size (heap p)) (heap p) link ->
                 a ∉ links s) ->
      forall l, l ∈ links s ->
        (has_class (dispatchClick beyond s link p) l "active" = true
         <-> l = link)).
Proof.
  intros Hlink Hs. split; [apply active_idem | split].
  - intros target.
    destruct (dispatchClick_active_frame beyond s target p) as [_ Hf].
    rewrite (dispatchClick_heap s target (dispatchClick beyond s target p)).
    rewrite (propagationPath_frame ["active"] p) by done.
    rewrite dispatchClick_heap.
    destruct (outermost_link (links s) (propagationPath p target))
      as [m |] eqn:Hm; [| done].
    apply activate_activate. by apply outermost_link_in in Hm as [? _].
  - intros Ha. apply click_activates_outermost_link; [| done].
    by apply outermost_link_alone.
Qed.

End ClickPath.

(** ** Scroll reveal: the predicate at load and at every scroll event *)

Section RevealPredicate.

Variable beyond :
  string -> gmap NodeId Element -> list NodeId -> option (list NodeId).

(** C4.  Scroll reveal: loading the script captures the elements with
    class [reveal] and measures each of them once; every scroll event
    afterwards, after any events whatever, again measures each captured
    element once.  At each of these evaluations the elements that get
    [visible] are exactly the captured ones whose top edge is above
    [innerHeight - 100], under the layout and the viewport height of that
    moment: after it an element carries [visible] if and only if it
    carried it before or it is captured and satisfies the predicate. *)
Theorem reveal_evaluated_at_load_and_on_every_scroll (p0 : Page) :
  exists s : Script,
    fst (onDOMContentLoaded beyond p0) = Normal s
    /\ revealElements s
       = List.filter (fun n => has_class p0 n "reveal") (document p0)
    /\ calls (exec (onDOMContentLoaded beyond) p0)
       = calls p0 ++ map GetBoundingClientRect (revealElements s)
    /\ (forall el,
          has_class (exec (onDOMContentLoaded beyond) p0) el "visible"
          = true
          <-> has_class p0 el "visible" = true
              \/ (el ∈ revealElements s
                  /\ (rectTop p0 el < inject_Z (innerHeight p0 - 100))%Q))
    /\ forall (evs : list Event) (y : Q) (tops : NodeId -> Q),
         calls (scrollEvent beyond s y tops
                  (run beyond s evs (exec (onDOMContentLoaded beyond) p0)))
         = calls (run beyond s evs (exec (onDOMContentLoaded beyond) p0))
           ++ map GetBoundingClientRect (revealElements s)
         /\ forall el,
              has_class
                (scrollEvent beyond s y tops
                   (run beyond s evs (exec (onDOMContentLoaded beyond) p0)))
                el "visible" = true
              <-> has_class
                    (run beyond s evs (exec (onDOMContentLoaded beyond) p0))
                    el "visible" = true
                  \/ (el ∈ revealElements s
                      /\ (tops el
                          < inject_Z
                              (innerHeight
                                 (run beyond s evs
                                    (exec (onDOMContentLoaded beyond) p0))
                               - 100))%Q).
Proof.
  pose proof (onDOMContentLoaded_run beyond p0) as Heq.
  set (rs := List.filter (fun n => has_class p0 n "reveal") (document p0))
    in *.
  set (s := mkScript (List.filter (is_clickable p0) (document p0))
              (List.filter (is_nav_link p0) (document p0)) rs) in *.
  exists s.
  assert (Halloc : forall el, el ∈ rs -> is_Some (heap p0 !! el)).
  { intros el [Hc _]%elem_of_filter_bool. by eapply has_class_is_Some. }
  assert (Hf0 : heap_frame ["visible"] (heap p0)
                  (heap (exec (onDOMContentLoaded beyond) p0))).
  { unfold exec. rewrite Heq. apply reveal_fold_frame. }
  split; [by rewrite Heq |]. split; [done |]. split; [| split].
  - unfold exec. rewrite Heq. simpl.
    by destruct (reveal_fold_calls rs p0) as [-> _].
  - intros el. rewrite onDOMContentLoaded_visible.
    split; (intros [H | H]; [by left | right]).
    + destruct H as (Hd & Hr & Hlt). split; [| done].
      by apply elem_of_filter_bool.
    + destruct H as ([Hr Hd]%elem_of_filter_bool & Hlt). done.
  - intros evs y tops.
    set (q := run beyond s evs (exec (onDOMContentLoaded beyond) p0)).
    destruct (run_frame beyond s evs (exec (onDOMContentLoaded beyond) p0))
      as (_ & Hf1). fold q in Hf1.
    unfold scrollEvent.
    destruct (dispatchScroll_reveals beyond s (scrolled y tops q))
      as [Hc _].
    split; [exact Hc |].
    intros el. rewrite dispatchScroll_visible.
    split; (intros [H | H]; [by left | right]).
    + by destruct H as (Hel & _ & Hlt).
    + destruct H as (Hel & Hlt). split; [done | split; [| done]].
      simpl. apply (heap_frame_is_Some _ _ _ el Hf1).
      apply (heap_frame_is_Some _ _ _ el Hf0). by apply Halloc.
Qed.

End RevealPredicate.

(** ** Nested links on the sample page *)

Example nested_script_is_loaded :
  fst (onDOMContentLoaded Sample.strict Variant.nested)
  = Normal Sample.script.
Proof. by_compute. Qed.

(** The claim C2 without the condition on the ancestors: with the link
    to [#section2] inside the link to [#home], both captured, the click
    on the inner link bubbles to the outer one, whose listener runs last;
    the clicked link is not the active one. *)
Lemma nested_click_activates_the_outer_link :
  ~ (3 ∈ links Sample.script -> is_Some (heap Variant.nested !! 3) ->
     forall l, l ∈ links Sample.script ->
       (has_class
          (dispatchClick Sample.strict Sample.script 3
             (run Sample.strict Sample.script [] Variant.nested))
          l "active" = true <-> l = 3)).
Proof.
  intros H.
  assert (H1 : 3 ∈ links Sample.script) by by_decide.
  assert (H2 : is_Some (heap Variant.nested !! 3)) by (vm_compute; eauto).
  destruct (H H1 H2 3 H1) as [_ H3].
  specialize (H3 eq_refl). vm_compute in H3. discriminate H3.
Qed.

(** The claim C9 without the condition on the ancestors: on the same
    page two clicks on the inner link leave the outer link active and
    the clicked one not. *)
Lemma nested_double_click_leaves_the_outer_link_active :
  ~ (3 ∈ links Sample.script -> is_Some (heap Variant.nested !! 3) ->
     heap (dispatchClick Sample.strict Sample.script 3
             (dispatchClick Sample.strict Sample.script 3 Variant.nested))
     = heap (dispatchClick Sample.strict Sample.script 3 Variant.nested)
     /\ forall l, l ∈ links Sample.script ->
          (has_class
             (dispatchClick Sample.strict Sample.script 3
                (dispatchClick Sample.strict Sample.script 3
                   Variant.nested))
             l "active" = true <-> l = 3)).
Proof.
  intros H.
  assert (H1 : 3 ∈ links Sample.script) by by_decide.
  assert (H2 : is_Some (heap Variant.nested !! 3)) by (vm_compute; eauto).
  destruct (H H1 H2) as [_ H3].
  assert (H4 : 2 ∈ links Sample.script) by by_decide.
  destruct (H3 2 H4) as [H5 _].
  assert (H6 : has_class
                 (dispatchClick Sample.strict Sample.script 3
                    (dispatchClick Sample.strict Sample.script 3
                       Variant.nested)) 2 "active" = true) by by_compute.
  specialize (H5 H6). discriminate H5.
Qed.

Lemma active_link_is_the_clicked_one_witness :
  4 ∈ links Sample.script
  /\ is_Some (heap Sample.page !! 4)
  /\ (forall a,
        a ∈ Selector.ancestors (size (heap Sample.page)) (heap Sample.page) 4
        -> a ∉ links Sample.script)
  /\ forall l, l ∈ links Sample.script ->
       (has_class
          (dispatchClick Sample.strict Sample.script 4
             (run Sample.strict Sample.script [Click 3] Sample.page))
          l "active" = true <-> l = 4).
Proof.
  assert (H1 : 4 ∈ links Sample.script) by by_decide.
  assert (H2 : is_Some (heap Sample.page !! 4)) by (vm_compute; eauto).
  assert (H3 : forall a,
             a ∈ Selector.ancestors (size (heap Sample.page))
                   (heap Sample.page) 4 -> a ∉ links Sample.script).
  { apply Forall_forall. by_decide. }
  split; [exact H1 | split; [exact H2 | split; [exact H3 |]]].
  exact (active_link_is_the_clicked_one Sample.strict Sample.script
           Sample.page [Click 3] 4 H1 H2 H3).
Defined.

Lemma active_click_twice_is_once_witness :
  3 ∈ links Sample.script
  /\ is_Some (heap Sample.page !! 3)
  /\ heap (dispatchClick Sample.strict Sample.script 3
             (dispatchClick Sample.strict Sample.script 3 Sample.page))
     = heap (dispatchClick Sample.strict Sample.script 3 Sample.page).
Proof.
  assert (H1 : 3 ∈ links Sample.script) by by_decide.
  assert (H2 : is_Some (heap Sample.page !! 3)) by (vm_compute; eauto).
  split; [exact H1 | split; [exact H2 |]].
  exact (proj1 (proj2 (active_click_twice_is_once Sample.strict
                         Sample.script 3 Sample.page H1 H2)) 3).
Defined.

Lemma broken_fragment_still_highlights_witness :
  4 ∈ clickables Sample.script
  /\ 4 ∈ links Sample.script
  /\ (forall a,
        a ∈ Selector.ancestors (size (heap Sample.page)) (heap Sample.page) 4
        -> (a ∉ clickables Sample.script) /\ (a ∉ links Sample.script))
  /\ forallb Selector.is_name_char (list_ascii_of_string "1") = true
  /\ Selector.is_ident (list_ascii_of_string "1") = false
  /\ heap Sample.page !! 4 ≫= hash = Some "#1"
  /\ uncaught (dispatchClick Sample.strict Sample.script 4 Sample.page)
     = uncaught Sample.page ++ [SyntaxError].
Proof.
  assert (H1 : 4 ∈ clickables Sample.script) by by_decide.
  assert (H2 : 4 ∈ links Sample.script) by by_decide.
  assert (H0 : forall a,
             a ∈ Selector.ancestors (size (heap Sample.page))
                   (heap Sample.page) 4 ->
             (a ∉ clickables Sample.script) /\ (a ∉ links Sample.script)).
  { apply Forall_forall. by_decide. }
  assert (H3 : forallb Selector.is_name_char (list_ascii_of_string "1")
               = true) by by_compute.
  assert (H4 : Selector.is_ident (list_ascii_of_string "1") = false)
    by by_compute.
  assert (H5 : heap Sample.page !! 4 ≫= hash = Some "#1") by by_compute.
  repeat (split; [assumption |]).
  exact (proj1 (broken_fragment_still_highlights Sample.strict
                  Sample.script 4 "1" Sample.page H1 H2 H0 H3 H4 H5)).
Defined.
